(** * matrix-corporal: hooks and the intercepting login handler

    A shallow embedding of [corporal/hook/hook.go] and
    [corporal/httpgateway/handler/login.go].

    Go methods that mutate their receiver are written in state-passing style.
    A method with a value receiver ([func (me Hook) ...]) works on a copy of
    the caller's struct: [by_value] runs the body on the copy and hands the
    caller's struct back untouched.  Calls to [regexp.Compile] are recorded in
    a log, so that statements about when compilation happens can be made. *)

From Stdlib Require Import String Ascii List Bool ZArith Lia.
Import ListNotations.
Local Open Scope list_scope.
Local Open Scope string_scope.

Set Implicit Arguments.

(** ** Go's standard library, as far as the two files use it *)

(** A Go [error], identified with the text of its [Error()] method. *)
Definition error := string.

(** Package [regexp].  [Compile] returns either a compiled expression or an
    error; [MatchString] reports whether the text contains a match.  The
    package is not part of the repository: the development is parametric in
    it. *)
Class RegexpLib : Type := {
  Regexp : Type;
  Compile : string -> Regexp + error;
  MatchString : Regexp -> string -> bool
}.

Module http.

(** The two fields of [http.Request] that the hook matcher reads. *)
Record Request : Type := {
  Method : string;
  RequestURI : string
}.

(** A response body: raw bytes, or a flat JSON object of string fields. *)
Inductive Body : Type :=
| RawBody (bytes : string)
| JSONBody (fields : list (string * string)).

(** An [http.Response] (from upstream), and equally what ends up written to
    an [http.ResponseWriter]. *)
Record Response : Type := {
  StatusCode : Z;
  Header : list (string * string);
  Content : Body
}.

Definition StatusForbidden : Z := 403.

End http.

(** ** Method results *)

(** What a call leaves behind: the receiver after the call, the patterns that
    were passed to [regexp.Compile] (in call order), and the returned value. *)
Record Ran (S A : Type) : Type := {
  receiver : S;
  compiled : list string;
  result : A
}.

(** A call on a value receiver: the body runs on a copy, the caller's struct
    stays as it was. *)
Definition by_value {S A : Type} (body : S -> Ran S A) (caller : S) : Ran S A :=
  let r := body caller in
  {| receiver := caller; compiled := compiled r; result := result r |}.

(** A Go call either returns or panics. *)
Inductive Outcome (A : Type) : Type :=
| Returned (a : A)
| Panicked (e : error).
Arguments Returned {A} a.
Arguments Panicked {A} e.

(** Modelled from the spec: [util.IsStringInArray] (package
    [devture-matrix-corporal/corporal/util]) is not under src/; the spec reads
    its two uses as membership in the known phase set and in the known action
    set. *)
Definition IsStringInArray (needle : string) (haystack : list string) : bool :=
  existsb (String.eqb needle) haystack.

(** ** corporal/hook/hook.go *)

Module hook.

Definition EventTypeBeforeAnyRequest : string := "beforeAnyRequest".
Definition EventTypeBeforeAuthenticatedPolicyCheckedRequest : string :=
  "beforeAuthenticatedPolicyCheckedRequest".

Definition knownEventTypes : list string :=
  [ EventTypeBeforeAnyRequest;
    EventTypeBeforeAuthenticatedPolicyCheckedRequest ].

(** Modelled from the spec: login.go names three more event types of this
    package, whose declarations are not under src/.  The spec lists them as
    the phases before-unauthenticated, after-any and after-unauthenticated;
    the values follow the naming of the two constants above. *)
Definition EventTypeBeforeUnauthenticatedRequest : string :=
  "beforeUnauthenticatedRequest".
Definition EventTypeAfterAnyRequest : string := "afterAnyRequest".
Definition EventTypeAfterUnauthenticatedRequest : string :=
  "afterUnauthenticatedRequest".

Definition ActionConsultRESTServiceURL : string := "consult.RESTServiceURL".
Definition ActionRespond : string := "respond".
Definition ActionReject : string := "reject".
Definition ActionPassUnmodified : string := "pass.unmodified".
Definition ActionPassInjectJSONIntoResponse : string :=
  "pass.injectJSONIntoResponse".

Definition knownActions : list string :=
  [ ActionConsultRESTServiceURL;
    ActionRespond;
    ActionReject;
    ActionPassUnmodified;
    ActionPassInjectJSONIntoResponse ].

Record restActionHookDetails : Type := {
  RESTServiceURL : option string;
  RESTServiceRequestMethod : option string;
  RESTServiceRequestTimeoutMilliseconds : option Z;
  RESTServiceRequestHeaders : option (list (string * string))
}.

Record respondActionHookDetails : Type := {
  ResponsePayload : option http.Body;
  ResponseSkipPayloadJSONSerialization : bool;
  ResponseStatusCode : option Z;
  ResponseContentType : option string
}.

Record rejectActionHookDetails : Type := {
  RejectionErrorCode : option string;
  RejectionErrorMessage : option string
}.

Record passInjectJSONIntoResponseActionHookDetails : Type := {
  InjectJSONIntoResponse : option (list (string * string));
  InjectHeadersIntoResponse : option (list (string * string))
}.

(** Modelled from the spec: [HttpResponseModifierFunc] is declared in a file
    of this package that is not under src/.  The spec describes a queued
    response rewrite as a transform of the upstream response's body and
    headers. *)
Definition HttpResponseModifierFunc : Type := http.Response -> http.Response.

(** The modifier functions that have been called so far, in call order. *)
Definition Calls : Type := list HttpResponseModifierFunc.

Definition call (f : HttpResponseModifierFunc) (response : http.Response)
    (calls : Calls) : http.Response * Calls :=
  (f response, (calls ++ [f])%list).

(** Modelled from the spec: [CreateChainedHttpResponseModifierFunc] is not
    under src/.  The spec has the queued rewrites applied to the upstream
    response in the order queued, zero rewrites being the identity. *)
Fixpoint CreateChainedHttpResponseModifierFunc
    (modifiers : list HttpResponseModifierFunc)
    (response : http.Response) (calls : Calls) : http.Response * Calls :=
  match modifiers with
  | [] => (response, calls)
  | modifier :: rest =>
      let (response', calls') := call modifier response calls in
      CreateChainedHttpResponseModifierFunc rest response' calls'
  end.

Section WithRegexp.
Context {RE : RegexpLib}.

Record Hook : Type := {
  ID : string;
  EventType : string;
  RouteMatchesRegex : option string;
  RouteMatchesRegexCompiled : option Regexp;
  MethodMatchesRegex : option string;
  MethodMatchesRegexCompiled : option Regexp;
  Action : string;
  restDetails : restActionHookDetails;
  respondDetails : respondActionHookDetails;
  rejectDetails : rejectActionHookDetails;
  passInjectDetails : passInjectJSONIntoResponseActionHookDetails
}.

Definition setRouteMatchesRegexCompiled (me : Hook) (regex : Regexp) : Hook :=
  {| ID := ID me; EventType := EventType me;
     RouteMatchesRegex := RouteMatchesRegex me;
     RouteMatchesRegexCompiled := Some regex;
     MethodMatchesRegex := MethodMatchesRegex me;
     MethodMatchesRegexCompiled := MethodMatchesRegexCompiled me;
     Action := Action me;
     restDetails := restDetails me; respondDetails := respondDetails me;
     rejectDetails := rejectDetails me;
     passInjectDetails := passInjectDetails me |}.

Definition setMethodMatchesRegexCompiled (me : Hook) (regex : Regexp) : Hook :=
  {| ID := ID me; EventType := EventType me;
     RouteMatchesRegex := RouteMatchesRegex me;
     RouteMatchesRegexCompiled := RouteMatchesRegexCompiled me;
     MethodMatchesRegex := MethodMatchesRegex me;
     MethodMatchesRegexCompiled := Some regex;
     Action := Action me;
     restDetails := restDetails me; respondDetails := respondDetails me;
     rejectDetails := rejectDetails me;
     passInjectDetails := passInjectDetails me |}.

(** The second half of [ensureInitialized]: the method pattern.  [log]
    holds the patterns compiled so far. *)
Definition ensureMethodInitialized (me : Hook) (log : list string)
    : Ran Hook (option error) :=
  match MethodMatchesRegex me with
  | Some pattern =>
      match Compile pattern with
      | inr err =>
          {| receiver := me; compiled := (log ++ [pattern])%list; result := Some err |}
      | inl regex =>
          {| receiver := setMethodMatchesRegexCompiled me regex;
             compiled := (log ++ [pattern])%list; result := None |}
      end
  | None => {| receiver := me; compiled := log; result := None |}
  end.

(** [func (me *Hook) ensureInitialized() error]: a pointer receiver, the
    assignments reach the struct it is called on. *)
Definition ensureInitialized (me : Hook) : Ran Hook (option error) :=
  match RouteMatchesRegex me with
  | Some pattern =>
      match Compile pattern with
      | inr err => {| receiver := me; compiled := [pattern]; result := Some err |}
      | inl regex =>
          ensureMethodInitialized (setRouteMatchesRegexCompiled me regex) [pattern]
      end
  | None => ensureMethodInitialized me []
  end.

(** The body of [Validate], on its receiver [me]. *)
Definition Validate_body (me : Hook) : Ran Hook (option error) :=
  if String.eqb (ID me) EmptyString then
    {| receiver := me; compiled := []; result := Some "Hook has no id" |}
  else if negb (IsStringInArray (EventType me) knownEventTypes) then
    {| receiver := me; compiled := [];
       result := Some (EventType me ++ " is an invalid event type for hook #" ++ ID me) |}
  else if negb (IsStringInArray (Action me) knownActions) then
    {| receiver := me; compiled := [];
       result := Some (Action me ++ " is an invalid action for hook #" ++ ID me) |}
  else
    let init := ensureInitialized me in
    match result init with
    | Some err =>
        {| receiver := receiver init; compiled := compiled init;
           result := Some ("Error when initializing hook #" ++ ID me ++ ": " ++ err) |}
    | None =>
        {| receiver := receiver init; compiled := compiled init; result := None |}
    end.

(** [func (me Hook) Validate() error] *)
Definition Validate : Hook -> Ran Hook (option error) := by_value Validate_body.

(** The body of [MatchesRequest], on its receiver [me]. *)
Definition MatchesRequest_body (request : http.Request) (me : Hook)
    : Ran Hook (Outcome bool) :=
  let init := ensureInitialized me in
  let me := receiver init in
  match result init with
  | Some err =>
      {| receiver := me; compiled := compiled init; result := Panicked err |}
  | None =>
      let route :=
        match RouteMatchesRegexCompiled me with
        | Some regex =>
            if negb (MatchString regex (http.RequestURI request))
            then Returned false
            else Returned true
        | None => Returned true
        end in
      {| receiver := me; compiled := compiled init;
         result :=
           match MethodMatchesRegexCompiled me with
           | Some regex =>
               if negb (MatchString regex (http.Method request))
               then Returned false
               else route
           | None => route
           end |}
  end.

(** [func (me Hook) MatchesRequest(request *http.Request) bool] *)
Definition MatchesRequest (me : Hook) (request : http.Request)
    : Ran Hook (Outcome bool) :=
  by_value (MatchesRequest_body request) me.

(** [func (me Hook) String() string].  ([String] itself is the constructor of
    Rocq's strings.) *)
Definition Hook_String (me : Hook) : string :=
  "<Hook #" ++ ID me ++ " (" ++ Action me ++ " @ " ++ EventType me ++ ")>".

(** *** Vocabulary for the statements about hooks *)

(** A regex that is present compiles; an absent one has nothing to compile. *)
Definition compiles (pattern : option string) : Prop :=
  match pattern with
  | Some p => exists regex, Compile p = inl regex
  | None => True
  end.

(** A dimension of a hook matches a text: no regex (a wildcard), or a regex
    whose compiled form matches the text. *)
Definition dimensionMatches (pattern : option string) (text : string) : Prop :=
  match pattern with
  | Some p => exists regex, Compile p = inl regex /\ MatchString regex text = true
  | None => True
  end.

(** The regexes a hook has, route first. *)
Definition presentPatterns (h : Hook) : list string :=
  (match RouteMatchesRegex h with Some p => [p] | None => [] end ++
   match MethodMatchesRegex h with Some p => [p] | None => [] end)%list.

(** The matcher a dimension has once [ensureInitialized] has returned nil:
    the freshly compiled regex when there is one, else whatever the field
    held before. *)
Definition matcherAfterInit (pattern : option string) (held : option Regexp)
    : option Regexp :=
  match pattern with
  | Some p => match Compile p with inl regex => Some regex | inr _ => held end
  | None => held
  end.

Definition matcherAccepts (matcher : option Regexp) (text : string) : bool :=
  match matcher with
  | Some regex => MatchString regex text
  | None => true
  end.

(** No compiled matcher is set for a regex that is absent. *)
Definition unsetWhereAbsent (h : Hook) : Prop :=
  (RouteMatchesRegex h = None -> RouteMatchesRegexCompiled h = None) /\
  (MethodMatchesRegex h = None -> MethodMatchesRegexCompiled h = None).

End WithRegexp.

(** [text] has [part] somewhere inside it. *)
Definition contains (text part : string) : Prop :=
  exists before after, text = before ++ part ++ after.

End hook.

(** ** corporal/httpgateway/handler/login.go and what it calls *)

Module logrus.

Inductive Level : Type := DebugLevel | InfoLevel | FatalLevel.

(** The fields a logger carries ([WithField], [WithFields]), oldest first. *)
Definition Fields : Type := list (string * string).

End logrus.

Module interceptor.

(** Modelled from the spec: package [interceptor] is not under src/.  The
    spec has an interceptor answer [Deny(status, errorCode, errorMessage)] or
    [Proxy]; login.go compares [Result] with the two constants and treats
    every other value as unexpected.  [ErrorCode], [ErrorMessage] and
    [LoggingContextFields] are the fields login.go reads; [Status] is the
    spec's Deny status, which login.go never reads. *)
Inductive InterceptorResult : Type :=
| InterceptorResultDeny
| InterceptorResultProxy
| InterceptorResultOther (value : string).

Record InterceptorResponse : Type := {
  Result : InterceptorResult;
  LoggingContextFields : logrus.Fields;
  Status : Z;
  ErrorCode : string;
  ErrorMessage : string
}.

(** [type Interceptor interface { Intercept(r *http.Request) InterceptorResponse }] *)
Record Interceptor : Type := {
  Intercept : http.Request -> InterceptorResponse
}.

End interceptor.

Module handler.
Import interceptor.

(** An argument of a log format. *)
Inductive LogArg : Type :=
| ArgString (s : string)
| ArgResponse (v : InterceptorResponse).

Record LogEntry : Type := {
  level : logrus.Level;
  fields : logrus.Fields;
  format : string;
  args : list LogArg
}.

(** What one request leaves behind: the response the client has been sent
    (if any), the response modifier functions that were called, the log, and
    the exit status once the process has been terminated. *)
Record World : Type := {
  written : option http.Response;
  ran : hook.Calls;
  logged : list LogEntry;
  exited : option Z
}.

Definition start : World :=
  {| written := None; ran := []; logged := []; exited := None |}.

Definition log (lvl : logrus.Level) (logger : logrus.Fields) (fmt : string)
    (a : list LogArg) (w : World) : World :=
  {| written := written w; ran := ran w;
     logged := (logged w ++
                [{| level := lvl; fields := logger; format := fmt; args := a |}])%list;
     exited := exited w |}.

Definition Debugf := log logrus.DebugLevel.
Definition Infof := log logrus.InfoLevel.

(** logrus' [Fatalf] logs, then exits the process with status 1. *)
Definition Fatalf (logger : logrus.Fields) (fmt : string) (a : list LogArg)
    (w : World) : World :=
  let w := log logrus.FatalLevel logger fmt a w in
  {| written := written w; ran := ran w; logged := logged w; exited := Some 1%Z |}.

Definition WithField (logger : logrus.Fields) (key value : string) : logrus.Fields :=
  (logger ++ [(key, value)])%list.

Definition WithFields (logger more : logrus.Fields) : logrus.Fields :=
  (logger ++ more)%list.

Definition write (response : http.Response) (w : World) : World :=
  {| written := Some response; ran := ran w; logged := logged w; exited := exited w |}.

(** Modelled from the spec: [httphelp.RespondWithMatrixError] is not under
    src/.  The spec gives the deny response as the JSON body with the keys
    errcode and error, content type application/json, and the given
    status. *)
Definition RespondWithMatrixError (w : World) (status : Z)
    (errorCode errorMessage : string) : World :=
  write {| http.StatusCode := status;
           http.Header := [("Content-Type", "application/json")];
           http.Content := http.JSONBody [("errcode", errorCode); ("error", errorMessage)] |}
        w.

(** [httputil.ReverseProxy]: where the upstream answer comes from, and the
    optional [ModifyResponse] function. *)
Record ReverseProxy : Type := {
  Upstream : http.Request -> http.Response;
  ModifyResponse : option (http.Response -> hook.Calls -> http.Response * hook.Calls)
}.

(** [reverseProxyCopy := *reverseProxyToUse] followed by the assignment to
    [reverseProxyCopy.ModifyResponse]: a copy, the handler's own proxy is
    left as it was. *)
Definition withModifyResponse (p : ReverseProxy)
    (f : http.Response -> hook.Calls -> http.Response * hook.Calls) : ReverseProxy :=
  {| Upstream := Upstream p; ModifyResponse := Some f |}.

(** [ReverseProxy.ServeHTTP], of Go's standard library: the upstream
    response passes through [ModifyResponse], when there is one, before it is
    copied to the client. *)
Definition ServeHTTP (p : ReverseProxy) (w : World) (r : http.Request) : World :=
  let response := Upstream p r in
  match ModifyResponse p with
  | None => write response w
  | Some modify =>
      let (response', calls) := modify response (ran w) in
      {| written := Some response'; ran := calls; logged := logged w; exited := exited w |}
  end.

(** Modelled from the spec: [runHook] and package [hookrunner] are not under
    src/.  By the spec and by the comment in login.go, a phase either ends
    the request, the response having been written by the hook that aborted or
    answered, or lets it continue, response modifier functions having been
    scheduled; a phase never calls them. *)
Inductive PhaseOutcome : Type :=
| PhaseContinues (scheduled : list hook.HttpResponseModifierFunc)
| PhaseEndsRequest (response : http.Response).

Record HookRunner : Type := {
  RunPhase : string -> http.Request -> PhaseOutcome
}.

Definition runHook (hookRunner : HookRunner) (eventType : string) (w : World)
    (r : http.Request) (logger : logrus.Fields)
    (httpResponseModifierFuncs : list hook.HttpResponseModifierFunc)
    : bool * World * list hook.HttpResponseModifierFunc :=
  match RunPhase hookRunner eventType r with
  | PhaseContinues scheduled =>
      (true, w, (httpResponseModifierFuncs ++ scheduled)%list)
  | PhaseEndsRequest response =>
      (false, write response w, httpResponseModifierFuncs)
  end.

Record loginHandler : Type := {
  reverseProxy : ReverseProxy;
  hookRunner : HookRunner;
  loginInterceptor : Interceptor;
  logger : logrus.Fields
}.

Definition hooksToRun : list string :=
  [ hook.EventTypeBeforeAnyRequest;
    hook.EventTypeBeforeUnauthenticatedRequest;
    hook.EventTypeAfterAnyRequest;
    hook.EventTypeAfterUnauthenticatedRequest ].

(** The loop over [hooksToRun]: [None] when a phase made the handler
    return, otherwise the queue of response modifier functions. *)
Fixpoint runHooks (me : loginHandler) (eventTypes : list string) (w : World)
    (r : http.Request) (logger : logrus.Fields)
    (httpResponseModifierFuncs : list hook.HttpResponseModifierFunc)
    : World * option (list hook.HttpResponseModifierFunc) :=
  match eventTypes with
  | [] => (w, Some httpResponseModifierFuncs)
  | eventType :: rest =>
      match runHook (hookRunner me) eventType w r logger httpResponseModifierFuncs with
      | (true, w', funcs) => runHooks me rest w' r logger funcs
      | (false, w', _) => (w', None)
      end
  end.

(** What the loop amounts to for a request: the functions scheduled by the
    phases, in order, when every phase lets the request continue; otherwise
    the response of the first phase that ends it. *)
Fixpoint phases (hookRunner : HookRunner) (r : http.Request)
    (eventTypes : list string)
    : list hook.HttpResponseModifierFunc + http.Response :=
  match eventTypes with
  | [] => inl []
  | eventType :: rest =>
      match RunPhase hookRunner eventType r with
      | PhaseEndsRequest response => inr response
      | PhaseContinues scheduled =>
          match phases hookRunner r rest with
          | inl later => inl (scheduled ++ later)%list
          | inr response => inr response
          end
      end
  end.

(** The [http.HandlerFunc] that [createInterceptorHandler] returns. *)
Definition createInterceptorHandler (me : loginHandler) (name : string)
    (interceptorObj : Interceptor) (w : World) (r : http.Request) : World :=
  let logger := WithField (logger me) "method" (http.Method r) in
  let logger := WithField logger "uri" (http.RequestURI r) in
  let logger := WithField logger "handler" name in
  match runHooks me hooksToRun w r logger [] with
  | (w, None) => w
  | (w, Some httpResponseModifierFuncs) =>
      let interceptorResult := Intercept interceptorObj r in
      let logger := WithFields logger (LoggingContextFields interceptorResult) in
      match Result interceptorResult with
      | InterceptorResultDeny =>
          let w := Infof logger "HTTP gateway (intercepted): denying (%s: %s)"
                     [ArgString (ErrorCode interceptorResult);
                      ArgString (ErrorMessage interceptorResult)] w in
          RespondWithMatrixError w http.StatusForbidden
            (ErrorCode interceptorResult) (ErrorMessage interceptorResult)
      | InterceptorResultProxy =>
          let (w, reverseProxyToUse) :=
            if Nat.eqb (List.length httpResponseModifierFuncs) 0 then
              (Debugf logger "HTTP gateway (intercepted): proxying" [] w,
               reverseProxy me)
            else
              (Debugf logger
                 "HTTP gateway (intercepted): proxying (with response modification)" [] w,
               withModifyResponse (reverseProxy me)
                 (hook.CreateChainedHttpResponseModifierFunc httpResponseModifierFuncs)) in
          ServeHTTP reverseProxyToUse w r
      | InterceptorResultOther _ =>
          Fatalf logger "HTTP gateway (intercepted): unexpected interceptor result: %#v"
            [ArgResponse interceptorResult] w
      end
  end.

(** [RegisterRoutesWithRouter]: POST /_matrix/client/r0/login is served by
    the handler created for the login interceptor. *)
Definition loginRoute (me : loginHandler) : World -> http.Request -> World :=
  createInterceptorHandler me "login" (loginInterceptor me).

(** The logger the handler holds once the interceptor has answered: the
    handler's own fields, then method, uri and handler, then the interceptor's
    logging context. *)
Definition loggerFor (me : loginHandler) (name : string) (i : Interceptor)
    (r : http.Request) : logrus.Fields :=
  WithFields
    (WithField (WithField (WithField (logger me) "method" (http.Method r))
                  "uri" (http.RequestURI r))
       "handler" name)
    (LoggingContextFields (Intercept i r)).

(** [NewLoginHandler] *)
Definition NewLoginHandler (reverseProxy : ReverseProxy) (hookRunner : HookRunner)
    (loginInterceptor : Interceptor) (logger : logrus.Fields) : loginHandler :=
  {| reverseProxy := reverseProxy; hookRunner := hookRunner;
     loginInterceptor := loginInterceptor; logger := logger |}.

(** A route registered with a [mux.Router]: the path, the methods it is
    restricted to, and the handler. *)
Record Route : Type := {
  path : string;
  methods : list string;
  serve : World -> http.Request -> World
}.

(** [RegisterRoutesWithRouter]: one more route on the router. *)
Definition RegisterRoutesWithRouter (me : loginHandler) (router : list Route)
    : list Route :=
  (router ++
   [{| path := "/_matrix/client/r0/login";
       methods := ["POST"];
       serve := createInterceptorHandler me "login" (loginInterceptor me) |}])%list.

End handler.

(** ** A regular-expression engine to run the model on

    An instance of [RegexpLib] for a fragment of the syntax Go's [regexp]
    accepts: literal characters, [.], groups, alternation, the repetitions
    [*], [+] and [?] (also in their lazy forms), and the anchors [^] and [$].
    Matching is by derivatives; [MatchString] looks for a match anywhere in
    the text, as Go's does.  Patterns outside the fragment are refused. *)

Module re2.
Local Open Scope char_scope.

Inductive re : Type :=
| Void                      (* matches nothing *)
| Eps                       (* the empty text *)
| Bol                       (* ^ : at the beginning of the text *)
| Eol                       (* $ : at the end of the text *)
| Chr (c : ascii)
| Dot                       (* . : any character but a newline *)
| Any                       (* any character *)
| Alt (a b : re)
| Cat (a b : re)
| Star (a : re).

Definition mkAlt (a b : re) : re :=
  match a, b with
  | Void, _ => b
  | _, Void => a
  | _, _ => Alt a b
  end.

Definition mkCat (a b : re) : re :=
  match a, b with
  | Void, _ => Void
  | _, Void => Void
  | Eps, _ => b
  | _, Eps => a
  | _, _ => Cat a b
  end.

(** Does [r] match the empty text at a position that is ([bol]) the
    beginning and ([eol]) the end of the text? *)
Fixpoint nullable (bol eol : bool) (r : re) : bool :=
  match r with
  | Void | Chr _ | Dot | Any => false
  | Eps | Star _ => true
  | Bol => bol
  | Eol => eol
  | Alt a b => nullable bol eol a || nullable bol eol b
  | Cat a b => nullable bol eol a && nullable bol eol b
  end.

(** What is left of [r] after reading [c] at a position that is ([bol]) the
    beginning of the text. *)
Fixpoint deriv (bol : bool) (c : ascii) (r : re) : re :=
  match r with
  | Void | Eps | Bol | Eol => Void
  | Chr d => if Ascii.eqb c d then Eps else Void
  | Dot => if Ascii.eqb c (ascii_of_nat 10) then Void else Eps
  | Any => Eps
  | Alt a b => mkAlt (deriv bol c a) (deriv bol c b)
  | Cat a b =>
      if nullable bol false a
      then mkAlt (mkCat (deriv bol c a) b) (deriv bol c b)
      else mkCat (deriv bol c a) b
  | Star a => mkCat (deriv bol c a) (Star a)
  end.

Fixpoint matchesWhole (r : re) (bol : bool) (text : string) : bool :=
  match text with
  | EmptyString => nullable bol true r
  | String c rest => matchesWhole (deriv bol c r) false rest
  end.

Definition matchString (r : re) (text : string) : bool :=
  matchesWhole (Cat (Star Any) (Cat r (Star Any))) true text.

Definition isRepetition (c : ascii) : bool :=
  Ascii.eqb c "*" || Ascii.eqb c "+" || Ascii.eqb c "?".

Definition outsideFragment (c : ascii) : bool :=
  Ascii.eqb c "[" || Ascii.eqb c "]" || Ascii.eqb c "{" || Ascii.eqb c "}"
  || Ascii.eqb c "\".

Definition repeat (op : ascii) (a : re) : re :=
  if Ascii.eqb op "*" then Star a
  else if Ascii.eqb op "+" then Cat a (Star a)
  else Alt a Eps.

Definition parsed : Type := (re * string) + error.

(** Recursive descent, alternation binding loosest; [n] bounds the depth. *)
Fixpoint parseAlt (n : nat) (s : string) {struct n} : parsed :=
  match n with
  | O => inr "pattern too deep"%string
  | S n =>
      match parseCat n s with
      | inl (a, String "|" rest) =>
          match parseAlt n rest with
          | inl (b, rest') => inl (Alt a b, rest')
          | inr e => inr e
          end
      | other => other
      end
  end
with parseCat (n : nat) (s : string) {struct n} : parsed :=
  match n with
  | O => inr "pattern too deep"%string
  | S n =>
      match s with
      | EmptyString => inl (Eps, s)
      | String c _ =>
          if Ascii.eqb c "|" || Ascii.eqb c ")" then inl (Eps, s)
          else
            match parseRepeat n s with
            | inl (a, rest) =>
                match parseCat n rest with
                | inl (b, rest') => inl (mkCat a b, rest')
                | inr e => inr e
                end
            | inr e => inr e
            end
      end
  end
with parseRepeat (n : nat) (s : string) {struct n} : parsed :=
  match n with
  | O => inr "pattern too deep"%string
  | S n =>
      match parseAtom n s with
      | inl (a, String op rest) =>
          if isRepetition op then
            let rest := match rest with
                        | String "?" rest' => rest'
                        | _ => rest
                        end in
            match rest with
            | String c _ =>
                if isRepetition c
                then inr "invalid nested repetition operator"%string
                else inl (repeat op a, rest)
            | EmptyString => inl (repeat op a, rest)
            end
          else inl (a, String op rest)
      | other => other
      end
  end
with parseAtom (n : nat) (s : string) {struct n} : parsed :=
  match n with
  | O => inr "pattern too deep"%string
  | S n =>
      match s with
      | EmptyString => inr "missing argument to repetition operator"%string
      | String "(" (String "?" _) => inr "group flags are outside the fragment"%string
      | String "(" rest =>
          match parseAlt n rest with
          | inl (a, String ")" rest') => inl (a, rest')
          | inl _ => inr "missing closing )"%string
          | inr e => inr e
          end
      | String "." rest => inl (Dot, rest)
      | String "^" rest => inl (Bol, rest)
      | String "$" rest => inl (Eol, rest)
      | String c rest =>
          if isRepetition c then inr "missing argument to repetition operator"%string
          else if outsideFragment c then inr "syntax outside the fragment"%string
          else inl (Chr c, rest)
      end
  end.

Definition compile (pattern : string) : re + error :=
  match parseAlt (4 * String.length pattern + 4) pattern with
  | inl (r, EmptyString) => inl r
  | inl (_, String _ _) =>
      inr ("error parsing regexp: unexpected ): `" ++ pattern ++ "`")%string
  | inr e => inr ("error parsing regexp: " ++ e ++ ": `" ++ pattern ++ "`")%string
  end.

Definition lib : RegexpLib :=
  {| Regexp := re; Compile := compile; MatchString := matchString |}.

End re2.


(** ** Concrete hooks, requests and collaborators *)

Module sample.
Import hook interceptor handler.

Definition noRest : restActionHookDetails :=
  {| RESTServiceURL := None; RESTServiceRequestMethod := None;
     RESTServiceRequestTimeoutMilliseconds := None;
     RESTServiceRequestHeaders := None |}.

Definition noRespond : respondActionHookDetails :=
  {| ResponsePayload := None; ResponseSkipPayloadJSONSerialization := false;
     ResponseStatusCode := None; ResponseContentType := None |}.

Definition noReject : rejectActionHookDetails :=
  {| RejectionErrorCode := None; RejectionErrorMessage := None |}.

Definition noInject : passInjectJSONIntoResponseActionHookDetails :=
  {| InjectJSONIntoResponse := None; InjectHeadersIntoResponse := None |}.

(** A hook as decoded from a policy document: the compiled matchers unset. *)
Definition decoded {RE : RegexpLib} (id eventType : string)
    (route method : option string) (action : string) : Hook :=
  {| ID := id; EventType := eventType;
     RouteMatchesRegex := route; RouteMatchesRegexCompiled := None;
     MethodMatchesRegex := method; MethodMatchesRegexCompiled := None;
     Action := action;
     restDetails := noRest; respondDetails := noRespond;
     rejectDetails := noReject; passInjectDetails := noInject |}.

Definition loginHook : Hook (RE := re2.lib) :=
  decoded "login-writes" EventTypeBeforeAnyRequest
    (Some "^/login$") (Some "^(POST|PUT)$") ActionPassUnmodified.

Definition routeOnlyHook : Hook (RE := re2.lib) :=
  decoded "login-route" EventTypeBeforeAnyRequest
    (Some "^/login$") None ActionPassUnmodified.

(** The route regex lacks its closing parenthesis. *)
Definition brokenHook : Hook (RE := re2.lib) :=
  decoded "broken" EventTypeBeforeAnyRequest (Some "(") None ActionReject.

Definition namelessHook : Hook (RE := re2.lib) :=
  decoded EmptyString EventTypeBeforeAnyRequest None None ActionReject.

(** A hook for one of the phases the login handler runs. *)
Definition phaseHook {RE : RegexpLib} (eventType : string) : Hook :=
  decoded "h1" eventType None None ActionPassUnmodified.

(** No route regex, yet a compiled route matcher is set. *)
Definition staleHook : Hook (RE := re2.lib) :=
  {| ID := "stale"; EventType := EventTypeBeforeAnyRequest;
     RouteMatchesRegex := None;
     RouteMatchesRegexCompiled :=
       match @Compile re2.lib "^/login$" with inl regex => Some regex | inr _ => None end;
     MethodMatchesRegex := None; MethodMatchesRegexCompiled := None;
     Action := ActionPassUnmodified;
     restDetails := noRest; respondDetails := noRespond;
     rejectDetails := noReject; passInjectDetails := noInject |}.

Definition postLogin : http.Request :=
  {| http.Method := "POST"; http.RequestURI := "/login" |}.
Definition getLogin : http.Request :=
  {| http.Method := "GET"; http.RequestURI := "/login" |}.
Definition getLogout : http.Request :=
  {| http.Method := "GET"; http.RequestURI := "/logout" |}.

(** Two rewrites that do not commute: each sets the whole body. *)
Definition setBody (fields : list (string * string)) : HttpResponseModifierFunc :=
  fun response =>
    {| http.StatusCode := http.StatusCode response;
       http.Header := http.Header response;
       http.Content := http.JSONBody fields |}.

Definition addHeader (key value : string) : HttpResponseModifierFunc :=
  fun response =>
    {| http.StatusCode := http.StatusCode response;
       http.Header := (http.Header response ++ [(key, value)])%list;
       http.Content := http.Content response |}.

Definition first : HttpResponseModifierFunc := setBody [("custom_field", "first")].
Definition second : HttpResponseModifierFunc := setBody [("custom_field", "second")].

Definition upstreamResponse : http.Response :=
  {| http.StatusCode := 200; http.Header := [];
     http.Content := http.JSONBody [("user_id", "@a:x")] |}.

Definition proxy : ReverseProxy :=
  {| Upstream := fun _ => upstreamResponse; ModifyResponse := None |}.

(** Every phase lets the request continue and schedules nothing. *)
Definition quiet : HookRunner :=
  {| RunPhase := fun _ _ => PhaseContinues [] |}.

(** The two after-phases schedule one rewrite each. *)
Definition rewriting : HookRunner :=
  {| RunPhase := fun eventType _ =>
       if String.eqb eventType EventTypeAfterAnyRequest then PhaseContinues [first]
       else if String.eqb eventType EventTypeAfterUnauthenticatedRequest
            then PhaseContinues [second]
            else PhaseContinues [] |}.

Definition rejection : http.Response :=
  {| http.StatusCode := 403;
     http.Header := [("Content-Type", "application/json")];
     http.Content := http.JSONBody [("errcode", "M_FORBIDDEN"); ("error", "Denied by policy")] |}.

(** The after-any phase schedules a rewrite, the phase after it rejects. *)
Definition rejecting : HookRunner :=
  {| RunPhase := fun eventType _ =>
       if String.eqb eventType EventTypeAfterAnyRequest then PhaseContinues [first]
       else if String.eqb eventType EventTypeAfterUnauthenticatedRequest
            then PhaseEndsRequest rejection
            else PhaseContinues [] |}.

Definition denying : Interceptor :=
  {| Intercept := fun _ =>
       {| Result := InterceptorResultDeny; LoggingContextFields := [];
          Status := 401; ErrorCode := "M_UNKNOWN_TOKEN";
          ErrorMessage := "Unrecognised access token" |} |}.

Definition proxying : Interceptor :=
  {| Intercept := fun _ =>
       {| Result := InterceptorResultProxy; LoggingContextFields := [];
          Status := 0; ErrorCode := EmptyString; ErrorMessage := EmptyString |} |}.

Definition confused : Interceptor :=
  {| Intercept := fun _ =>
       {| Result := InterceptorResultOther "retry"; LoggingContextFields := [];
          Status := 0; ErrorCode := EmptyString; ErrorMessage := EmptyString |} |}.

Definition gateway (runner : HookRunner) (i : Interceptor) : loginHandler :=
  {| reverseProxy := proxy; hookRunner := runner; loginInterceptor := i; logger := [] |}.

(** The route regex compiles, the method regex (a repetition of nothing)
    does not. *)
Definition methodBrokenHook : Hook (RE := re2.lib) :=
  decoded "method-broken" EventTypeBeforeAnyRequest (Some "^/login$") (Some "*")
    ActionReject.

(** The regexes of [loginHook] on a hook that [Validate] refuses (no id, an
    event type and an action of its own), carrying compiled matchers for other
    patterns. *)
Definition strayHook : Hook (RE := re2.lib) :=
  {| ID := EmptyString; EventType := "whenever";
     RouteMatchesRegex := Some "^/login$";
     RouteMatchesRegexCompiled := Some (re2.Chr "x"%char : @Regexp re2.lib);
     MethodMatchesRegex := Some "^(POST|PUT)$";
     MethodMatchesRegexCompiled := Some (re2.Void : @Regexp re2.lib);
     Action := "shrug";
     restDetails := noRest; respondDetails := noRespond;
     rejectDetails := noReject; passInjectDetails := noInject |}.

(** A respond hook without its required status code, and one with it. *)
Definition respondHook (status : option Z) : Hook (RE := re2.lib) :=
  {| ID := "answer"; EventType := EventTypeBeforeAnyRequest;
     RouteMatchesRegex := Some "^/login$"; RouteMatchesRegexCompiled := None;
     MethodMatchesRegex := None; MethodMatchesRegexCompiled := None;
     Action := ActionRespond;
     restDetails := noRest;
     respondDetails :=
       {| ResponsePayload := Some (http.RawBody "closed");
          ResponseSkipPayloadJSONSerialization := false;
          ResponseStatusCode := status; ResponseContentType := None |};
     rejectDetails := noReject; passInjectDetails := noInject |}.

(** [loginHook] under another id, on the route only. *)
Definition loginHookAgain : Hook (RE := re2.lib) :=
  decoded "login-writes" EventTypeBeforeAnyRequest
    (Some "^/login") None ActionPassUnmodified.

(** A reverse proxy with a [ModifyResponse] of its own. *)
Definition stamp : HttpResponseModifierFunc := addHeader "X-Served-By" "corporal".

Definition stampingProxy : ReverseProxy :=
  {| Upstream := fun _ => upstreamResponse; ModifyResponse := Some (call stamp) |}.

(** The first phase answers the request itself. *)
Definition answering : HookRunner :=
  {| RunPhase := fun eventType _ =>
       if String.eqb eventType EventTypeBeforeAnyRequest then PhaseEndsRequest rejection
       else PhaseContinues [second] |}.

End sample.

(** ** Auxiliary functions on strings *)

(** Does the text hold the character [#]? *)
Fixpoint hasHash (text : string) : bool :=
  match text with
  | EmptyString => false
  | String c rest => Ascii.eqb c "#" || hasHash rest
  end.

(** The text without its first [n] characters. *)
Fixpoint dropChars (n : nat) (text : string) : string :=
  match n, text with
  | S n, String _ rest => dropChars n rest
  | _, _ => text
  end.

(** What [Hook.String] puts after the id. *)
Definition renderingTail (action eventType : string) : string :=
  " (" ++ action ++ " @ " ++ eventType ++ ")>".

(** [tail] is what [text] ends with. *)
Definition endsWith (text tail : string) : bool :=
  String.eqb (dropChars (String.length text - String.length tail) text) tail.

(** * Properties of the hook model *)

Lemma append_assoc (a b c : string) : ((a ++ b) ++ c = a ++ (b ++ c))%string.
Proof. induction a as [|x a IH]; simpl; [reflexivity | now rewrite IH]. Qed.

Lemma append_nil_r (a : string) : (a ++ EmptyString = a)%string.
Proof. induction a as [|x a IH]; simpl; [reflexivity | now rewrite IH]. Qed.

Lemma contains_tail (text a b : string) :
  hook.contains text (a ++ b) -> hook.contains text b.
Proof.
  intros (before & after & ->). exists (before ++ a), after.
  now rewrite !append_assoc.
Qed.

Lemma IsStringInArray_In (needle : string) (haystack : list string) :
  IsStringInArray needle haystack = true <-> In needle haystack.
Proof.
  unfold IsStringInArray. rewrite existsb_exists. split.
  - intros (x & Hx & Heq). apply String.eqb_eq in Heq. now subst.
  - intros H. exists needle. split; [exact H | apply String.eqb_refl].
Qed.

Section HookProperties.
Context {RE : RegexpLib}.
Import hook.

Implicit Types (h me : Hook) (r : http.Request).

(** A method on a value receiver hands the caller's hook back as it was. *)
Lemma Validate_receiver h : receiver (Validate h) = h.
Proof. reflexivity. Qed.

Lemma MatchesRequest_receiver h r : receiver (MatchesRequest h r) = h.
Proof. reflexivity. Qed.

(** *** [ensureInitialized] *)

Lemma ensureInitialized_nil_iff h :
  result (ensureInitialized h) = None <->
  compiles (RouteMatchesRegex h) /\ compiles (MethodMatchesRegex h).
Proof.
  unfold ensureInitialized, ensureMethodInitialized, compiles.
  destruct (RouteMatchesRegex h) as [p|]; [destruct (Compile p) as [re|e] eqn:Ep|];
    simpl; (destruct (MethodMatchesRegex h) as [q|];
            [destruct (Compile q) as [re'|e'] eqn:Eq|]); simpl;
    split; try (intros [[? ?] [? ?]]); try (intros [? [? ?]]);
    try (intros [[? ?] ?]); try discriminate; eauto.
Qed.

Lemma ensureInitialized_compiled h :
  result (ensureInitialized h) = None ->
  compiled (ensureInitialized h) = presentPatterns h.
Proof.
  unfold ensureInitialized, ensureMethodInitialized, presentPatterns.
  destruct (RouteMatchesRegex h) as [p|]; [destruct (Compile p) as [re|e]|];
    simpl; (destruct (MethodMatchesRegex h) as [q|];
            [destruct (Compile q) as [re'|e']|]); simpl;
    intros; try discriminate; reflexivity.
Qed.

Lemma ensureInitialized_matchers h :
  result (ensureInitialized h) = None ->
  RouteMatchesRegexCompiled (receiver (ensureInitialized h)) =
    matcherAfterInit (RouteMatchesRegex h) (RouteMatchesRegexCompiled h) /\
  MethodMatchesRegexCompiled (receiver (ensureInitialized h)) =
    matcherAfterInit (MethodMatchesRegex h) (MethodMatchesRegexCompiled h).
Proof.
  unfold ensureInitialized, ensureMethodInitialized, matcherAfterInit.
  destruct (RouteMatchesRegex h) as [p|]; [destruct (Compile p) as [re|e]|];
    simpl; (destruct (MethodMatchesRegex h) as [q|];
            [destruct (Compile q) as [re'|e']|]); simpl;
    intros; try discriminate; split; reflexivity.
Qed.

(** The error of [ensureInitialized] is the error of the first regex, route
    before method, that does not compile. *)
Lemma ensureInitialized_error h :
  result (ensureInitialized h) =
    match RouteMatchesRegex h with
    | Some p =>
        match Compile p with
        | inr e => Some e
        | inl _ =>
            match MethodMatchesRegex h with
            | Some q => match Compile q with inr e => Some e | inl _ => None end
            | None => None
            end
        end
    | None =>
        match MethodMatchesRegex h with
        | Some q => match Compile q with inr e => Some e | inl _ => None end
        | None => None
        end
    end.
Proof.
  unfold ensureInitialized, ensureMethodInitialized.
  destruct (RouteMatchesRegex h) as [p|]; [destruct (Compile p) as [re|e]|];
    simpl; (destruct (MethodMatchesRegex h) as [q|];
            [destruct (Compile q) as [re'|e']|]); reflexivity.
Qed.

(** *** [Validate] *)

Lemma Validate_result h :
  result (Validate h) =
    if String.eqb (ID h) EmptyString then Some "Hook has no id"
    else if negb (IsStringInArray (EventType h) knownEventTypes)
    then Some (EventType h ++ " is an invalid event type for hook #" ++ ID h)
    else if negb (IsStringInArray (Action h) knownActions)
    then Some (Action h ++ " is an invalid action for hook #" ++ ID h)
    else match result (ensureInitialized h) with
         | Some err => Some ("Error when initializing hook #" ++ ID h ++ ": " ++ err)
         | None => None
         end.
Proof.
  unfold Validate, by_value, Validate_body. cbn [result].
  destruct (String.eqb (ID h) EmptyString); [reflexivity|].
  destruct (negb (IsStringInArray (EventType h) knownEventTypes)); [reflexivity|].
  destruct (negb (IsStringInArray (Action h) knownActions)); [reflexivity|].
  destruct (result (ensureInitialized h)); reflexivity.
Qed.

Lemma Validate_nil_initialized h :
  result (Validate h) = None -> result (ensureInitialized h) = None.
Proof.
  rewrite Validate_result.
  destruct (String.eqb (ID h) EmptyString); [discriminate|].
  destruct (negb (IsStringInArray (EventType h) knownEventTypes)); [discriminate|].
  destruct (negb (IsStringInArray (Action h) knownActions)); [discriminate|].
  destruct (result (ensureInitialized h)); [discriminate | reflexivity].
Qed.

Lemma Validate_compiled h :
  result (Validate h) = None -> compiled (Validate h) = presentPatterns h.
Proof.
  intros Hv. pose proof (Validate_nil_initialized h Hv) as Hi.
  rewrite Validate_result in Hv.
  unfold Validate, by_value, Validate_body. cbn [compiled].
  destruct (String.eqb (ID h) EmptyString); [discriminate|].
  destruct (negb (IsStringInArray (EventType h) knownEventTypes)); [discriminate|].
  destruct (negb (IsStringInArray (Action h) knownActions)); [discriminate|].
  rewrite Hi. cbn [compiled]. now apply ensureInitialized_compiled.
Qed.

(** C5.  [Validate] returns nil exactly when the id is not empty, the event
    type and the action are known and every regex that is present compiles;
    and an error it returns has the hook's id in its text: after [hook #]
    whenever the id is not empty (for an empty id the text is
    [Hook has no id]). *)
Theorem Validate_nil_iff h :
  (result (Validate h) = None <->
     ID h <> EmptyString /\
     In (EventType h) knownEventTypes /\
     In (Action h) knownActions /\
     compiles (RouteMatchesRegex h) /\
     compiles (MethodMatchesRegex h))
  /\
  (forall err, result (Validate h) = Some err ->
     contains err (ID h) /\
     (ID h <> EmptyString -> contains err ("hook #" ++ ID h)) /\
     (ID h = EmptyString -> err = "Hook has no id")).
Proof.
  rewrite Validate_result. split.
  - rewrite <- !IsStringInArray_In, <- ensureInitialized_nil_iff.
    destruct (String.eqb_spec (ID h) EmptyString) as [Hid|Hid].
    { split; [discriminate | intros [H _]; contradiction]. }
    destruct (IsStringInArray (EventType h) knownEventTypes); cbn [negb].
    2:{ split; [discriminate | intros (_ & H & _); discriminate H]. }
    destruct (IsStringInArray (Action h) knownActions); cbn [negb].
    2:{ split; [discriminate | intros (_ & _ & H & _); discriminate H]. }
    destruct (result (ensureInitialized h)).
    + split; [discriminate | intros (_ & _ & _ & H); discriminate H].
    + split; auto.
  - intros err.
    destruct (String.eqb_spec (ID h) EmptyString) as [Hid|Hid].
    { intros [= <-]. repeat split.
      - rewrite Hid. exists EmptyString, "Hook has no id". reflexivity.
      - intros; contradiction. }
    intros Herr.
    assert (Hc : contains err ("hook #" ++ ID h)).
    { destruct (negb (IsStringInArray (EventType h) knownEventTypes)).
      { injection Herr as <-.
        exists (EventType h ++ " is an invalid event type for "), EmptyString.
        rewrite append_assoc, append_nil_r. reflexivity. }
      destruct (negb (IsStringInArray (Action h) knownActions)).
      { injection Herr as <-.
        exists (Action h ++ " is an invalid action for "), EmptyString.
        rewrite append_assoc, append_nil_r. reflexivity. }
      destruct (result (ensureInitialized h)) as [e|]; [|discriminate].
      injection Herr as <-.
      exists "Error when initializing ", (": " ++ e). reflexivity. }
    repeat split.
    + eapply contains_tail; exact Hc.
    + intros _; exact Hc.
    + intros; contradiction.
Qed.

(** *** [MatchesRequest] *)

Lemma MatchesRequest_result h r :
  result (MatchesRequest h r) =
    match result (ensureInitialized h) with
    | Some err => Panicked err
    | None =>
        Returned
          (matcherAccepts (MethodMatchesRegexCompiled (receiver (ensureInitialized h)))
             (http.Method r)
           && matcherAccepts (RouteMatchesRegexCompiled (receiver (ensureInitialized h)))
                (http.RequestURI r))
    end.
Proof.
  unfold MatchesRequest, by_value, MatchesRequest_body. cbn [result].
  destruct (result (ensureInitialized h)); cbn [result]; [reflexivity|].
  unfold matcherAccepts.
  destruct (MethodMatchesRegexCompiled (receiver (ensureInitialized h))) as [m|];
    [destruct (MatchString m (http.Method r))|];
    (destruct (RouteMatchesRegexCompiled (receiver (ensureInitialized h))) as [t|];
     [destruct (MatchString t (http.RequestURI r))|]); reflexivity.
Qed.

Lemma MatchesRequest_compiled h r :
  compiled (MatchesRequest h r) = compiled (ensureInitialized h).
Proof.
  unfold MatchesRequest, by_value, MatchesRequest_body. cbn [compiled].
  destruct (result (ensureInitialized h)); reflexivity.
Qed.

(** What [MatchesRequest] returns for a hook that passed [Validate], in terms
    of the matchers it consults. *)
Lemma MatchesRequest_matchers h r :
  result (Validate h) = None ->
  result (MatchesRequest h r) =
    Returned
      (matcherAccepts
         (matcherAfterInit (MethodMatchesRegex h) (MethodMatchesRegexCompiled h))
         (http.Method r)
       && matcherAccepts
            (matcherAfterInit (RouteMatchesRegex h) (RouteMatchesRegexCompiled h))
            (http.RequestURI r)).
Proof.
  intros Hv. apply Validate_nil_initialized in Hv.
  rewrite MatchesRequest_result, Hv.
  destruct (ensureInitialized_matchers h Hv) as [-> ->]. reflexivity.
Qed.

Lemma dimension_accepts (pattern : option string) (held : option Regexp)
    (text : string) :
  compiles pattern ->
  (pattern = None -> held = None) ->
  matcherAccepts (matcherAfterInit pattern held) text = true <->
  dimensionMatches pattern text.
Proof.
  destruct pattern as [p|]; simpl.
  - intros [regex E] _. rewrite E. simpl. split.
    + intros H. now exists regex.
    + intros (regex' & E' & H). congruence.
  - intros _ H. rewrite (H eq_refl). simpl. tauto.
Qed.

(** C6, amended.  For a hook that passed [Validate] and has no compiled
    matcher set where its regex is nil, [MatchesRequest] returns true exactly
    when the method dimension and the route dimension both match, a nil regex
    matching everything. *)
Theorem MatchesRequest_iff_dimensions h r :
  result (Validate h) = None ->
  unsetWhereAbsent h ->
  exists b,
    result (MatchesRequest h r) = Returned b /\
    (b = true <->
       dimensionMatches (MethodMatchesRegex h) (http.Method r) /\
       dimensionMatches (RouteMatchesRegex h) (http.RequestURI r)).
Proof.
  intros Hv [Hroute Hmethod].
  rewrite (MatchesRequest_matchers h r Hv). eexists. split; [reflexivity|].
  apply Validate_nil_initialized, ensureInitialized_nil_iff in Hv.
  destruct Hv as [Hr Hm].
  rewrite andb_true_iff.
  rewrite (dimension_accepts (http.Method r) Hm Hmethod),
    (dimension_accepts (http.RequestURI r) Hr Hroute).
  tauto.
Qed.

(** C9.  On a hook that passed [Validate], [MatchesRequest] returns a
    boolean, it does not panic, and the caller's hook is what it was: a
    second call sees the same hook and returns the same. *)
Theorem MatchesRequest_total_pure h r :
  result (Validate h) = None ->
  exists b,
    result (MatchesRequest h r) = Returned b /\
    receiver (MatchesRequest h r) = h /\
    result (MatchesRequest (receiver (MatchesRequest h r)) r) = Returned b.
Proof.
  intros Hv. rewrite MatchesRequest_receiver, (MatchesRequest_matchers h r Hv).
  eexists. repeat split.
Qed.

(** C10.  A hook with a regex that is present and does not compile does not
    pass [Validate], and [MatchesRequest] panics on it for every request. *)
Theorem MatchesRequest_panics h :
  (exists p e, RouteMatchesRegex h = Some p /\ Compile p = inr e) \/
  (exists p e, MethodMatchesRegex h = Some p /\ Compile p = inr e) ->
  result (Validate h) <> None /\
  forall r, exists e, result (MatchesRequest h r) = Panicked e.
Proof.
  intros Hbad.
  assert (Hinit : exists e, result (ensureInitialized h) = Some e).
  { rewrite ensureInitialized_error.
    destruct Hbad as [(p & e & -> & ->) | (p & e & -> & ->)].
    - eauto.
    - destruct (RouteMatchesRegex h) as [q|]; [destruct (Compile q)|]; eauto. }
  destruct Hinit as [e He]. split.
  - intros Hv. apply Validate_nil_initialized in Hv. congruence.
  - intros r. exists e. now rewrite MatchesRequest_result, He.
Qed.

(** C3, amended.  When [Validate] returns nil it has compiled every regex
    that is present, route first, and each compiled; and every call of
    [MatchesRequest] compiles every present regex again and consults the
    matchers it has just compiled: it returns the conjunction of what the
    method matcher and the route matcher say, where the matcher of a present
    regex is the one just compiled from it, whatever the hook held before. *)
Theorem regexes_compiled_by_every_call h :
  result (Validate h) = None ->
  compiled (Validate h) = presentPatterns h /\
  Forall (fun p => exists regex, Compile p = inl regex) (presentPatterns h) /\
  (forall p, In p (presentPatterns h) ->
     forall held, exists regex,
       Compile p = inl regex /\ matcherAfterInit (Some p) held = Some regex) /\
  forall r,
    compiled (MatchesRequest h r) = presentPatterns h /\
    result (MatchesRequest h r) =
      Returned
        (matcherAccepts
           (matcherAfterInit (MethodMatchesRegex h) (MethodMatchesRegexCompiled h))
           (http.Method r)
         && matcherAccepts
              (matcherAfterInit (RouteMatchesRegex h) (RouteMatchesRegexCompiled h))
              (http.RequestURI r)).
Proof.
  intros Hv. split; [now apply Validate_compiled|].
  pose proof (Validate_nil_initialized h Hv) as Hi.
  destruct (proj1 (ensureInitialized_nil_iff h) Hi) as [Hr Hm].
  assert (Hall : Forall (fun p => exists regex, Compile p = inl regex)
                   (presentPatterns h)).
  { unfold presentPatterns, compiles in *. apply Forall_app. split.
    - destruct (RouteMatchesRegex h); auto.
    - destruct (MethodMatchesRegex h); auto. }
  split; [exact Hall|]. split.
  - intros p Hp held.
    destruct (proj1 (Forall_forall _ _) Hall p Hp) as [regex Hc].
    exists regex. split; [exact Hc|]. unfold matcherAfterInit. now rewrite Hc.
  - intros r. split.
    + rewrite MatchesRequest_compiled. now apply ensureInitialized_compiled.
    + now apply MatchesRequest_matchers.
Qed.

(** An event type outside [knownEventTypes] is refused, whatever else the
    hook holds. *)
Lemma Validate_unlisted_phase h :
  ID h <> EmptyString ->
  EventType h <> EventTypeBeforeAnyRequest ->
  EventType h <> EventTypeBeforeAuthenticatedPolicyCheckedRequest ->
  result (Validate h) =
    Some (EventType h ++ " is an invalid event type for hook #" ++ ID h).
Proof.
  intros Hid H1 H2. rewrite Validate_result.
  destruct (String.eqb_spec (ID h) EmptyString); [contradiction|].
  assert (Hn : IsStringInArray (EventType h) knownEventTypes = false).
  { apply not_true_is_false. rewrite IsStringInArray_In. simpl. intuition auto. }
  now rewrite Hn.
Qed.

(** C4.  [Validate] refuses a hook declared for any of the three phases that
    the login handler runs besides [beforeAnyRequest]: they are missing from
    [knownEventTypes]. *)
Theorem login_phases_refused :
  result (Validate (sample.phaseHook EventTypeBeforeAnyRequest)) = None /\
  result (Validate (sample.phaseHook EventTypeBeforeUnauthenticatedRequest)) =
    Some "beforeUnauthenticatedRequest is an invalid event type for hook #h1" /\
  result (Validate (sample.phaseHook EventTypeAfterAnyRequest)) =
    Some "afterAnyRequest is an invalid event type for hook #h1" /\
  result (Validate (sample.phaseHook EventTypeAfterUnauthenticatedRequest)) =
    Some "afterUnauthenticatedRequest is an invalid event type for hook #h1".
Proof. repeat split. Qed.

End HookProperties.

(** * Properties of the login handler *)

Section HandlerProperties.
Import interceptor handler.

Implicit Types (me : loginHandler) (i : Interceptor) (w : World)
  (r : http.Request) (fs : list hook.HttpResponseModifierFunc).

(** The chained function calls the modifiers one after the other, first
    queued first. *)
Lemma CreateChained_fold fs (response : http.Response) (calls : hook.Calls) :
  hook.CreateChainedHttpResponseModifierFunc fs response calls =
    (fold_left (fun resp f => f resp) fs response, (calls ++ fs)%list).
Proof.
  revert response calls. induction fs as [|f fs IH]; intros response calls; simpl.
  - now rewrite app_nil_r.
  - rewrite IH, <- app_assoc. reflexivity.
Qed.

(** The loop over the phases leaves the world alone as long as the phases let
    the request continue, and returns at the first phase that ends it. *)
Lemma runHooks_phases me (eventTypes : list string) w r (lg : logrus.Fields) fs :
  runHooks me eventTypes w r lg fs =
    match phases (hookRunner me) r eventTypes with
    | inl scheduled => (w, Some (fs ++ scheduled)%list)
    | inr response => (write response w, None)
    end.
Proof.
  revert fs. induction eventTypes as [|eventType rest IH]; intros fs; simpl.
  - now rewrite app_nil_r.
  - unfold runHook.
    destruct (RunPhase (hookRunner me) eventType r) as [scheduled|response];
      [|reflexivity].
    rewrite IH.
    destruct (phases (hookRunner me) r rest); [|reflexivity].
    now rewrite app_assoc.
Qed.

(** The handler, once the phases have let the request through. *)
Lemma handler_after_phases me (name : string) i w r fs :
  phases (hookRunner me) r hooksToRun = inl fs ->
  exists lg,
    createInterceptorHandler me name i w r =
      match Result (Intercept i r) with
      | InterceptorResultDeny =>
          RespondWithMatrixError
            (Infof lg "HTTP gateway (intercepted): denying (%s: %s)"
               [ArgString (ErrorCode (Intercept i r));
                ArgString (ErrorMessage (Intercept i r))] w)
            http.StatusForbidden
            (ErrorCode (Intercept i r)) (ErrorMessage (Intercept i r))
      | InterceptorResultProxy =>
          match fs with
          | [] =>
              ServeHTTP (reverseProxy me)
                (Debugf lg "HTTP gateway (intercepted): proxying" [] w) r
          | _ :: _ =>
              ServeHTTP
                (withModifyResponse (reverseProxy me)
                   (hook.CreateChainedHttpResponseModifierFunc fs))
                (Debugf lg
                   "HTTP gateway (intercepted): proxying (with response modification)"
                   [] w) r
          end
      | InterceptorResultOther _ =>
          Fatalf lg "HTTP gateway (intercepted): unexpected interceptor result: %#v"
            [ArgResponse (Intercept i r)] w
      end.
Proof.
  intros Hphases. eexists.
  unfold createInterceptorHandler. cbv zeta.
  rewrite runHooks_phases, Hphases. cbn [app].
  destruct (Result (Intercept i r)); [reflexivity | | reflexivity].
  destruct fs; reflexivity.
Qed.

(** The handler, when a phase has ended the request. *)
Lemma handler_phase_ended me (name : string) i w r (response : http.Response) :
  phases (hookRunner me) r hooksToRun = inr response ->
  createInterceptorHandler me name i w r = write response w.
Proof.
  intros Hphases. unfold createInterceptorHandler. cbv zeta.
  now rewrite runHooks_phases, Hphases.
Qed.

(** C1, amended.  When the interceptor returns a result that is neither Deny
    nor Proxy, the handler logs it at fatal level and the process exits with
    status 1; no response is written. *)
Theorem unexpected_result_exits me (name : string) i w r fs (v : string) :
  phases (hookRunner me) r hooksToRun = inl fs ->
  Result (Intercept i r) = InterceptorResultOther v ->
  exited (createInterceptorHandler me name i w r) = Some 1%Z /\
  written (createInterceptorHandler me name i w r) = written w /\
  ran (createInterceptorHandler me name i w r) = ran w /\
  exists entry,
    logged (createInterceptorHandler me name i w r) = (logged w ++ [entry])%list /\
    level entry = logrus.FatalLevel /\
    args entry = [ArgResponse (Intercept i r)].
Proof.
  intros Hphases Hres.
  destruct (handler_after_phases me name i w r Hphases) as [lg ->].
  rewrite Hres. repeat split. eexists. repeat split.
Qed.

(** C2, amended.  When the interceptor returns Deny, the handler writes the
    JSON error envelope with the interceptor's error code and message, and
    the status is 403 Forbidden. *)
Theorem deny_answers_forbidden me (name : string) i w r fs :
  phases (hookRunner me) r hooksToRun = inl fs ->
  Result (Intercept i r) = InterceptorResultDeny ->
  written (createInterceptorHandler me name i w r) =
    Some {| http.StatusCode := 403;
            http.Header := [("Content-Type", "application/json")];
            http.Content :=
              http.JSONBody [("errcode", ErrorCode (Intercept i r));
                             ("error", ErrorMessage (Intercept i r))] |}.
Proof.
  intros Hphases Hres.
  destruct (handler_after_phases me name i w r Hphases) as [lg ->].
  now rewrite Hres.
Qed.

(** C7.  When a phase ends the request or the interceptor denies it, no
    response modifier function is called: the response of that phase, or the
    error envelope, is written, and whatever was queued is dropped. *)
Theorem rewrites_not_run_without_proxying me (name : string) i w r :
  (exists response, phases (hookRunner me) r hooksToRun = inr response) \/
  Result (Intercept i r) = InterceptorResultDeny ->
  ran (createInterceptorHandler me name i w r) = ran w /\
  written (createInterceptorHandler me name i w r) =
    Some match phases (hookRunner me) r hooksToRun with
         | inr response => response
         | inl _ =>
             {| http.StatusCode := 403;
                http.Header := [("Content-Type", "application/json")];
                http.Content :=
                  http.JSONBody [("errcode", ErrorCode (Intercept i r));
                                 ("error", ErrorMessage (Intercept i r))] |}
         end.
Proof.
  intros H.
  destruct (phases (hookRunner me) r hooksToRun) as [fs|response] eqn:Hphases.
  - destruct H as [[response H] | Hres]; [discriminate|].
    destruct (handler_after_phases me name i w r Hphases) as [lg ->].
    now rewrite Hres.
  - now rewrite (handler_phase_ended me name i w r Hphases).
Qed.

(** C8, amended.  When the interceptor returns Proxy: with nothing queued the
    request is served by the handler's own reverse proxy, to which the handler
    attaches no function, so that the client gets the upstream response as it
    is whenever that reverse proxy has no [ModifyResponse] of its own; with
    rewrites queued the client gets the upstream response after every queued
    rewrite has been applied to it, first queued first. *)
Theorem proxy_applies_queue_in_order me (name : string) i w r fs :
  phases (hookRunner me) r hooksToRun = inl fs ->
  Result (Intercept i r) = InterceptorResultProxy ->
  (fs = [] ->
     (exists w0,
        createInterceptorHandler me name i w r = ServeHTTP (reverseProxy me) w0 r /\
        written w0 = written w /\ ran w0 = ran w) /\
     (ModifyResponse (reverseProxy me) = None ->
        written (createInterceptorHandler me name i w r) =
          Some (Upstream (reverseProxy me) r) /\
        ran (createInterceptorHandler me name i w r) = ran w)) /\
  (fs <> [] ->
     written (createInterceptorHandler me name i w r) =
       Some (fold_left (fun response f => f response) fs (Upstream (reverseProxy me) r)) /\
     ran (createInterceptorHandler me name i w r) = (ran w ++ fs)%list).
Proof.
  intros Hphases Hres.
  destruct (handler_after_phases me name i w r Hphases) as [lg ->].
  rewrite Hres. split.
  - intros ->. split.
    + eexists. repeat split.
    + intros Hnone. unfold ServeHTTP. rewrite Hnone. split; reflexivity.
  - intros Hfs. destruct fs as [|f fs]; [contradiction|].
    unfold ServeHTTP, withModifyResponse. cbn [ModifyResponse Upstream].
    rewrite CreateChained_fold. split; reflexivity.
Qed.

End HandlerProperties.

(** * The statements on concrete hooks and requests *)

Module runs.
Import hook interceptor handler sample.
#[local] Existing Instance re2.lib.

(** ** Hooks, with the engine [re2.lib] *)

Example loginHook_validates : result (Validate loginHook) = None.
Proof. vm_compute. reflexivity. Qed.

Example loginHook_matches :
  result (MatchesRequest loginHook postLogin) = Returned true /\
  result (MatchesRequest loginHook getLogin) = Returned false /\
  result (MatchesRequest loginHook getLogout) = Returned false.
Proof. vm_compute. repeat split. Qed.

Example namelessHook_refused :
  result (Validate namelessHook) = Some "Hook has no id".
Proof. vm_compute. reflexivity. Qed.

Example brokenHook_refused :
  result (Validate brokenHook) =
    Some "Error when initializing hook #broken: error parsing regexp: missing closing ): `(`".
Proof. vm_compute. reflexivity. Qed.

(** C3, as stated, fails on [routeOnlyHook]: [Validate] returns nil, the
    hook the caller holds afterwards has no compiled route matcher, and
    [MatchesRequest] compiles the route regex. *)
Lemma validated_hook_has_no_matcher :
  result (Validate routeOnlyHook) = None /\
  RouteMatchesRegex (receiver (Validate routeOnlyHook)) = Some "^/login$" /\
  RouteMatchesRegexCompiled (receiver (Validate routeOnlyHook)) = None /\
  compiled (MatchesRequest routeOnlyHook postLogin) = ["^/login$"].
Proof. vm_compute. repeat split. Qed.

Lemma regexes_compiled_by_every_call_witness :
  result (Validate loginHook) = None /\
  compiled (Validate loginHook) = ["^/login$"; "^(POST|PUT)$"] /\
  compiled (MatchesRequest loginHook getLogout) = ["^/login$"; "^(POST|PUT)$"] /\
  result (MatchesRequest loginHook getLogout) = Returned false /\
  result (MatchesRequest loginHook postLogin) = Returned true.
Proof.
  assert (Hv : result (Validate loginHook) = None) by (vm_compute; reflexivity).
  destruct (@regexes_compiled_by_every_call re2.lib loginHook Hv) as (Hc & _ & _ & Hm).
  split; [exact Hv|]. split; [exact Hc|]. split; [exact (proj1 (Hm getLogout))|].
  split; [exact (proj2 (Hm getLogout)) | exact (proj2 (Hm postLogin))].
Defined.

(** C6, as stated, fails on [staleHook]: it passes [Validate], both of its
    regexes are nil, and yet [MatchesRequest] returns false for a request,
    because the route matcher the hook carries is consulted. *)
Lemma stale_matcher_is_consulted :
  result (Validate staleHook) = None /\
  RouteMatchesRegex staleHook = None /\
  MethodMatchesRegex staleHook = None /\
  result (MatchesRequest staleHook getLogout) = Returned false.
Proof. vm_compute. repeat split. Qed.

Lemma MatchesRequest_iff_dimensions_witness :
  result (Validate loginHook) = None /\
  unsetWhereAbsent loginHook /\
  exists b,
    result (MatchesRequest loginHook getLogin) = Returned b /\
    (b = true <->
       dimensionMatches (MethodMatchesRegex loginHook) "GET" /\
       dimensionMatches (RouteMatchesRegex loginHook) "/login").
Proof.
  assert (Hv : result (Validate loginHook) = None) by (vm_compute; reflexivity).
  assert (Hu : unsetWhereAbsent loginHook) by (split; intros H; discriminate H).
  split; [exact Hv|]. split; [exact Hu|].
  exact (@MatchesRequest_iff_dimensions re2.lib loginHook getLogin Hv Hu).
Defined.

Lemma MatchesRequest_total_pure_witness :
  result (Validate loginHook) = None /\
  exists b,
    result (MatchesRequest loginHook postLogin) = Returned b /\
    receiver (MatchesRequest loginHook postLogin) = loginHook /\
    result (MatchesRequest (receiver (MatchesRequest loginHook postLogin)) postLogin)
      = Returned b.
Proof.
  assert (Hv : result (Validate loginHook) = None) by (vm_compute; reflexivity).
  split; [exact Hv|].
  exact (@MatchesRequest_total_pure re2.lib loginHook postLogin Hv).
Defined.

Lemma MatchesRequest_panics_witness :
  (RouteMatchesRegex brokenHook = Some "(" /\
   @Compile re2.lib "(" = inr "error parsing regexp: missing closing ): `(`") /\
  result (Validate brokenHook) <> None /\
  forall r, exists e, result (MatchesRequest brokenHook r) = Panicked e.
Proof.
  assert (Hb : RouteMatchesRegex brokenHook = Some "(" /\
               @Compile re2.lib "(" = inr "error parsing regexp: missing closing ): `(`")
    by (vm_compute; split; reflexivity).
  split; [exact Hb|].
  apply (@MatchesRequest_panics re2.lib brokenHook).
  left. exists "(", "error parsing regexp: missing closing ): `(`". exact Hb.
Defined.

(** ** The login handler *)

(** C1, as stated, fails on the interceptor [confused]: the process exits
    and the client is sent nothing. *)
Lemma unexpected_result_ends_process :
  Result (Intercept confused postLogin) = InterceptorResultOther "retry" /\
  exited (createInterceptorHandler (gateway quiet confused) "login" confused
            start postLogin) = Some 1%Z /\
  written (createInterceptorHandler (gateway quiet confused) "login" confused
             start postLogin) = None.
Proof. vm_compute. repeat split. Qed.

Lemma unexpected_result_exits_witness :
  exited (createInterceptorHandler (gateway quiet confused) "login" confused
            start postLogin) = Some 1%Z /\
  written (createInterceptorHandler (gateway quiet confused) "login" confused
             start postLogin) = written start /\
  ran (createInterceptorHandler (gateway quiet confused) "login" confused
         start postLogin) = ran start /\
  exists entry,
    logged (createInterceptorHandler (gateway quiet confused) "login" confused
              start postLogin) = (logged start ++ [entry])%list /\
    level entry = logrus.FatalLevel /\
    args entry = [ArgResponse (Intercept confused postLogin)].
Proof.
  apply (@unexpected_result_exits (gateway quiet confused) "login" confused
           start postLogin [] "retry"); reflexivity.
Defined.

(** C2, as stated, fails on the interceptor [denying]: its Deny result
    carries the status 401, the response is written with 403. *)
Lemma deny_status_is_not_the_interceptors :
  Result (Intercept denying postLogin) = InterceptorResultDeny /\
  Status (Intercept denying postLogin) = 401%Z /\
  option_map http.StatusCode
    (written (createInterceptorHandler (gateway quiet denying) "login" denying
                start postLogin)) = Some 403%Z.
Proof. vm_compute. repeat split. Qed.

Lemma deny_answers_forbidden_witness :
  written (createInterceptorHandler (gateway quiet denying) "login" denying
             start postLogin) =
    Some {| http.StatusCode := 403;
            http.Header := [("Content-Type", "application/json")];
            http.Content :=
              http.JSONBody [("errcode", "M_UNKNOWN_TOKEN");
                             ("error", "Unrecognised access token")] |}.
Proof.
  apply (@deny_answers_forbidden (gateway quiet denying) "login" denying
           start postLogin []); reflexivity.
Defined.

Lemma rewrites_not_run_without_proxying_witness :
  (ran (createInterceptorHandler (gateway rejecting proxying) "login" proxying
          start postLogin) = [] /\
   written (createInterceptorHandler (gateway rejecting proxying) "login" proxying
              start postLogin) = Some rejection) /\
  (ran (createInterceptorHandler (gateway rewriting denying) "login" denying
          start postLogin) = [] /\
   written (createInterceptorHandler (gateway rewriting denying) "login" denying
              start postLogin) =
     Some {| http.StatusCode := 403;
             http.Header := [("Content-Type", "application/json")];
             http.Content :=
               http.JSONBody [("errcode", "M_UNKNOWN_TOKEN");
                              ("error", "Unrecognised access token")] |}).
Proof.
  split.
  - apply (@rewrites_not_run_without_proxying (gateway rejecting proxying) "login"
             proxying start postLogin).
    left. exists rejection. reflexivity.
  - apply (@rewrites_not_run_without_proxying (gateway rewriting denying) "login"
             denying start postLogin).
    right. reflexivity.
Defined.

(** C8, as stated, fails on a handler whose reverse proxy has a
    [ModifyResponse] of its own: nothing is queued, the interceptor returns
    Proxy, and the client gets the upstream response with a header added by
    that function. *)
Lemma own_ModifyResponse_alters_response :
  phases quiet postLogin hooksToRun = inl [] /\
  Result (Intercept proxying postLogin) = InterceptorResultProxy /\
  Upstream stampingProxy postLogin =
    {| http.StatusCode := 200; http.Header := [];
       http.Content := http.JSONBody [("user_id", "@a:x")] |} /\
  written (createInterceptorHandler
             {| reverseProxy := stampingProxy; hookRunner := quiet;
                loginInterceptor := proxying; logger := [] |}
             "login" proxying start postLogin) =
    Some {| http.StatusCode := 200;
            http.Header := [("X-Served-By", "corporal")];
            http.Content := http.JSONBody [("user_id", "@a:x")] |} /\
  ran (createInterceptorHandler
         {| reverseProxy := stampingProxy; hookRunner := quiet;
            loginInterceptor := proxying; logger := [] |}
         "login" proxying start postLogin) = [stamp].
Proof. repeat split. Qed.

Lemma proxy_applies_queue_in_order_witness :
  phases rewriting postLogin hooksToRun = inl [first; second] /\
  (written (createInterceptorHandler (gateway rewriting proxying) "login" proxying
              start postLogin) =
     Some {| http.StatusCode := 200; http.Header := [];
             http.Content := http.JSONBody [("custom_field", "second")] |} /\
   ran (createInterceptorHandler (gateway rewriting proxying) "login" proxying
          start postLogin) = [first; second]) /\
  (written (createInterceptorHandler (gateway quiet proxying) "login" proxying
              start postLogin) = Some upstreamResponse /\
   ran (createInterceptorHandler (gateway quiet proxying) "login" proxying
          start postLogin) = []).
Proof.
  split; [reflexivity|]. split.
  - destruct (@proxy_applies_queue_in_order (gateway rewriting proxying) "login"
                proxying start postLogin [first; second] eq_refl eq_refl) as [_ H].
    apply H. discriminate.
  - destruct (@proxy_applies_queue_in_order (gateway quiet proxying) "login"
                proxying start postLogin [] eq_refl eq_refl) as [H _].
    exact (proj2 (H eq_refl) eq_refl).
Defined.

End runs.

(** * More on the hook model *)

Lemma hasHash_append (a b : string) : hasHash (a ++ b) = hasHash a || hasHash b.
Proof.
  induction a as [|c a IH]; simpl; [reflexivity|].
  now rewrite IH, orb_assoc.
Qed.

Section HookBehaviour.
Context {RE : RegexpLib}.
Import hook.

Implicit Types (h me : Hook) (r : http.Request).

(** X1.  [ensureInitialized] leaves every field of the hook alone except the
    compiled matcher of a regex that is present. *)
Theorem ensureInitialized_frame h :
  ID (receiver (ensureInitialized h)) = ID h /\
  EventType (receiver (ensureInitialized h)) = EventType h /\
  Action (receiver (ensureInitialized h)) = Action h /\
  RouteMatchesRegex (receiver (ensureInitialized h)) = RouteMatchesRegex h /\
  MethodMatchesRegex (receiver (ensureInitialized h)) = MethodMatchesRegex h /\
  restDetails (receiver (ensureInitialized h)) = restDetails h /\
  respondDetails (receiver (ensureInitialized h)) = respondDetails h /\
  rejectDetails (receiver (ensureInitialized h)) = rejectDetails h /\
  passInjectDetails (receiver (ensureInitialized h)) = passInjectDetails h /\
  (RouteMatchesRegex h = None ->
     RouteMatchesRegexCompiled (receiver (ensureInitialized h)) =
     RouteMatchesRegexCompiled h) /\
  (MethodMatchesRegex h = None ->
     MethodMatchesRegexCompiled (receiver (ensureInitialized h)) =
     MethodMatchesRegexCompiled h).
Proof.
  unfold ensureInitialized, ensureMethodInitialized.
  destruct (RouteMatchesRegex h) as [p|] eqn:Hr; [destruct (Compile p) as [re|e]|];
    simpl; (destruct (MethodMatchesRegex h) as [q|] eqn:Hm;
            [destruct (Compile q) as [re'|e']|]); simpl;
    repeat split; auto; intros; discriminate.
Qed.

(** X2.  [ensureInitialized] is idempotent: run on the hook it has left
    behind, it leaves the same hook, compiles the same patterns and returns the
    same. *)
Theorem ensureInitialized_idempotent h :
  ensureInitialized (receiver (ensureInitialized h)) = ensureInitialized h.
Proof.
  unfold ensureInitialized, ensureMethodInitialized.
  destruct (RouteMatchesRegex h) as [p|] eqn:Hr; [destruct (Compile p) as [re|e] eqn:Ep|];
    simpl; (destruct (MethodMatchesRegex h) as [q|] eqn:Hm;
            [destruct (Compile q) as [re'|e'] eqn:Eq|]); simpl;
    rewrite ?Hr, ?Ep; simpl; rewrite ?Hm, ?Eq; simpl; reflexivity.
Qed.

(** X3.  How [ensureInitialized] fails.  When the route regex does not
    compile, the hook is left as it was and the method regex is not tried.
    When the route regex compiles and the method regex does not, the error is
    the method regex's and the route matcher has been set all the same. *)
Theorem ensureInitialized_failure h :
  (forall p e, RouteMatchesRegex h = Some p -> Compile p = inr e ->
     ensureInitialized h = {| receiver := h; compiled := [p]; result := Some e |}) /\
  (forall p regex q e,
     RouteMatchesRegex h = Some p -> Compile p = inl regex ->
     MethodMatchesRegex h = Some q -> Compile q = inr e ->
     result (ensureInitialized h) = Some e /\
     compiled (ensureInitialized h) = [p; q] /\
     RouteMatchesRegexCompiled (receiver (ensureInitialized h)) = Some regex /\
     MethodMatchesRegexCompiled (receiver (ensureInitialized h)) =
       MethodMatchesRegexCompiled h).
Proof.
  unfold ensureInitialized, ensureMethodInitialized. split.
  - intros p e -> ->. reflexivity.
  - intros p regex q e -> -> Hm Hq. simpl. rewrite Hm, Hq. simpl. repeat split.
Qed.

Lemma Validate_compiled_cases h :
  compiled (Validate h) =
    if String.eqb (ID h) EmptyString then []
    else if negb (IsStringInArray (EventType h) knownEventTypes) then []
    else if negb (IsStringInArray (Action h) knownActions) then []
    else compiled (ensureInitialized h).
Proof.
  unfold Validate, by_value, Validate_body. cbn [compiled].
  destruct (String.eqb (ID h) EmptyString); [reflexivity|].
  destruct (negb (IsStringInArray (EventType h) knownEventTypes)); [reflexivity|].
  destruct (negb (IsStringInArray (Action h) knownActions)); [reflexivity|].
  destruct (result (ensureInitialized h)); reflexivity.
Qed.

Lemma not_in_known (needle : string) (haystack : list string) :
  ~ In needle haystack -> IsStringInArray needle haystack = false.
Proof. intros H. apply not_true_is_false. now rewrite IsStringInArray_In. Qed.

(** X4.  [Validate] reports the first check that fails, in the order id, event
    type, action, regexes; and as long as one of the first three fails, no
    regex is compiled. *)
Theorem Validate_checks_in_order h :
  (ID h = EmptyString ->
     result (Validate h) = Some "Hook has no id" /\ compiled (Validate h) = []) /\
  (ID h <> EmptyString -> ~ In (EventType h) knownEventTypes ->
     result (Validate h) =
       Some (EventType h ++ " is an invalid event type for hook #" ++ ID h) /\
     compiled (Validate h) = []) /\
  (ID h <> EmptyString -> In (EventType h) knownEventTypes ->
   ~ In (Action h) knownActions ->
     result (Validate h) =
       Some (Action h ++ " is an invalid action for hook #" ++ ID h) /\
     compiled (Validate h) = []) /\
  (ID h <> EmptyString -> In (EventType h) knownEventTypes ->
   In (Action h) knownActions ->
   forall err, result (ensureInitialized h) = Some err ->
     result (Validate h) =
       Some ("Error when initializing hook #" ++ ID h ++ ": " ++ err) /\
     compiled (Validate h) = compiled (ensureInitialized h)).
Proof.
  rewrite Validate_result, Validate_compiled_cases.
  repeat split.
  - now rewrite H, String.eqb_refl.
  - now rewrite H, String.eqb_refl.
  - destruct (String.eqb_spec (ID h) EmptyString); [contradiction|].
    now rewrite (not_in_known _ _ H0).
  - destruct (String.eqb_spec (ID h) EmptyString); [contradiction|].
    now rewrite (not_in_known _ _ H0).
  - destruct (String.eqb_spec (ID h) EmptyString); [contradiction|].
    apply IsStringInArray_In in H0. rewrite H0, (not_in_known _ _ H1). reflexivity.
  - destruct (String.eqb_spec (ID h) EmptyString); [contradiction|].
    apply IsStringInArray_In in H0. rewrite H0, (not_in_known _ _ H1). reflexivity.
  - destruct (String.eqb_spec (ID h) EmptyString); [contradiction|].
    apply IsStringInArray_In in H0, H1. rewrite H0, H1, H2. reflexivity.
  - destruct (String.eqb_spec (ID h) EmptyString); [contradiction|].
    apply IsStringInArray_In in H0, H1. rewrite H0, H1. reflexivity.
Qed.

(** What [ensureInitialized] compiles and returns is a matter of the two
    regexes alone. *)
Lemma ensureInitialized_reads_regexes h h' :
  RouteMatchesRegex h = RouteMatchesRegex h' ->
  MethodMatchesRegex h = MethodMatchesRegex h' ->
  result (ensureInitialized h) = result (ensureInitialized h') /\
  compiled (ensureInitialized h) = compiled (ensureInitialized h').
Proof.
  intros Hr Hm. unfold ensureInitialized, ensureMethodInitialized. rewrite <- Hr.
  destruct (RouteMatchesRegex h) as [p|]; [destruct (Compile p) as [re|e]|];
    simpl; rewrite <- ?Hm;
    (destruct (MethodMatchesRegex h) as [q|];
     [destruct (Compile q) as [re'|e']|]); simpl; split; reflexivity.
Qed.

(** X5.  [Validate] looks at the id, the event type, the action and the two
    regexes, and at nothing else: hooks that agree on these five get the same
    answer, whatever their action details and compiled matchers are. *)
Theorem Validate_reads_five_fields h h' :
  ID h = ID h' ->
  EventType h = EventType h' ->
  Action h = Action h' ->
  RouteMatchesRegex h = RouteMatchesRegex h' ->
  MethodMatchesRegex h = MethodMatchesRegex h' ->
  result (Validate h) = result (Validate h') /\
  compiled (Validate h) = compiled (Validate h').
Proof.
  intros Hid Het Hact Hr Hm.
  destruct (ensureInitialized_reads_regexes h h' Hr Hm) as [Hres Hlog].
  rewrite !Validate_result, !Validate_compiled_cases.
  now rewrite Hid, Het, Hact, Hres, Hlog.
Qed.

(** X6.  [MatchesRequest] looks at the two regexes and, for a regex that is
    nil, at the compiled matcher the hook carries: the id, the event type, the
    action, the action details and the compiled matcher of a regex that is
    present make no difference to what it returns or to whether it panics. *)
Theorem MatchesRequest_reads_matchers h h' r :
  RouteMatchesRegex h = RouteMatchesRegex h' ->
  MethodMatchesRegex h = MethodMatchesRegex h' ->
  (RouteMatchesRegex h = None ->
     RouteMatchesRegexCompiled h = RouteMatchesRegexCompiled h') ->
  (MethodMatchesRegex h = None ->
     MethodMatchesRegexCompiled h = MethodMatchesRegexCompiled h') ->
  result (MatchesRequest h r) = result (MatchesRequest h' r).
Proof.
  intros Hr Hm Hrc Hmc. rewrite !MatchesRequest_result.
  unfold ensureInitialized, ensureMethodInitialized. rewrite <- Hr, <- Hm.
  destruct (RouteMatchesRegex h) as [p|]; [destruct (Compile p) as [re|e]|];
    simpl; rewrite <- ?Hm;
    (destruct (MethodMatchesRegex h) as [q|];
     [destruct (Compile q) as [re'|e']|]); simpl;
    rewrite <- ?(Hrc eq_refl), <- ?(Hmc eq_refl); reflexivity.
Qed.

(** X7.  [MatchesRequest] panics exactly when a regex that is present does
    not compile, whether or not the hook would pass the other checks of
    [Validate]; in every other case it returns a boolean. *)
Theorem MatchesRequest_panics_iff h r :
  ((exists e, result (MatchesRequest h r) = Panicked e) <->
     ~ (compiles (RouteMatchesRegex h) /\ compiles (MethodMatchesRegex h))) /\
  ((exists b, result (MatchesRequest h r) = Returned b) <->
     compiles (RouteMatchesRegex h) /\ compiles (MethodMatchesRegex h)).
Proof.
  rewrite MatchesRequest_result, <- ensureInitialized_nil_iff.
  destruct (result (ensureInitialized h)) as [e|]; split; split.
  - intros _ H. discriminate H.
  - intros _. now exists e.
  - intros [b H]. discriminate H.
  - intros H. discriminate H.
  - intros [e H]. discriminate H.
  - intros H. now contradiction H.
  - reflexivity.
  - intros _. eexists. reflexivity.
Qed.

(** X8.  The error [Hook has no id] is returned for the hooks with an empty
    id and for no other hook. *)
Theorem Validate_no_id_iff h :
  result (Validate h) = Some "Hook has no id" <-> ID h = EmptyString.
Proof.
  rewrite Validate_result.
  destruct (String.eqb_spec (ID h) EmptyString) as [Hid|Hid]; [tauto|].
  split; [|contradiction]. intros H. exfalso.
  assert (Hno : forall a : string, a = "Hook has no id" -> hasHash a = false)
    by (intros a ->; reflexivity).
  destruct (negb (IsStringInArray (EventType h) knownEventTypes)).
  { injection H as H. apply Hno in H.
    rewrite hasHash_append in H. simpl in H. rewrite orb_true_r in H.
    discriminate H. }
  destruct (negb (IsStringInArray (Action h) knownActions)).
  { injection H as H. apply Hno in H.
    rewrite hasHash_append in H. simpl in H. rewrite orb_true_r in H.
    discriminate H. }
  destruct (result (ensureInitialized h)) as [e|]; discriminate H.
Qed.

End HookBehaviour.

(** ** [String] *)

Lemma length_append (a b : string) :
  String.length (a ++ b) = String.length a + String.length b.
Proof. induction a as [|c a IH]; simpl; [reflexivity | now rewrite IH]. Qed.

Lemma dropChars_append (a b : string) : dropChars (String.length a) (a ++ b) = b.
Proof. induction a as [|c a IH]; simpl; [now destruct b | exact IH]. Qed.

Lemma endsWith_append (a b : string) : endsWith (a ++ b) b = true.
Proof.
  unfold endsWith. rewrite length_append, Nat.add_sub, dropChars_append.
  apply String.eqb_refl.
Qed.

(** Two texts with the same end: the shorter tail is the end of the longer. *)
Lemma append_eq_tails (b a s1 s2 : string) :
  (a ++ s1 = b ++ s2)%string ->
  String.length s1 <= String.length s2 ->
  exists t, s2 = (t ++ s1)%string /\ a = (b ++ t)%string.
Proof.
  revert a. induction b as [|c b IH]; intros a Heq Hlen; simpl in Heq.
  - exists a. now split.
  - destruct a as [|c' a]; simpl in Heq.
    + exfalso. rewrite Heq in Hlen. simpl in Hlen. rewrite length_append in Hlen. lia.
    + injection Heq as -> Heq. destruct (IH a Heq Hlen) as (t & -> & ->).
      exists t. now split.
Qed.

Lemma append_same_tail (t s : string) : (t ++ s)%string = s -> t = EmptyString.
Proof.
  intros H. apply (f_equal String.length) in H. rewrite length_append in H.
  destruct t; [reflexivity | simpl in H; lia].
Qed.

(** None of the tails that [String] can put after the id of a hook with a
    known action and a known event type is the end of another. *)
Lemma renderingTail_known (a e a' e' : string) :
  In a hook.knownActions -> In e hook.knownEventTypes ->
  In a' hook.knownActions -> In e' hook.knownEventTypes ->
  endsWith (renderingTail a' e') (renderingTail a e) = true ->
  a = a' /\ e = e'.
Proof.
  unfold hook.knownActions, hook.knownEventTypes. simpl.
  intros Ha He Ha' He' H.
  repeat match goal with
         | K : _ \/ _ |- _ => destruct K as [K|K]
         | K : False |- _ => contradiction
         end; subst; try (split; reflexivity); vm_compute in H; discriminate H.
Qed.

Section HookRendering.
Context {RE : RegexpLib}.
Import hook.

Lemma Hook_String_tail (h : Hook) :
  Hook_String h = ("<Hook #" ++ ID h ++ renderingTail (Action h) (EventType h))%string.
Proof. reflexivity. Qed.

Lemma Validate_nil_known (h : Hook) :
  result (Validate h) = None ->
  In (Action h) knownActions /\ In (EventType h) knownEventTypes.
Proof.
  rewrite Validate_result, <- !IsStringInArray_In.
  destruct (String.eqb (ID h) EmptyString); [discriminate|].
  destruct (IsStringInArray (EventType h) knownEventTypes); [|discriminate].
  destruct (IsStringInArray (Action h) knownActions); [|discriminate].
  now split.
Qed.

(** X9.  For hooks that passed [Validate], [String] tells the id, the action
    and the event type: two such hooks with the same rendering agree on all
    three. *)
Theorem Hook_String_identifies (h h' : Hook) :
  result (Validate h) = None ->
  result (Validate h') = None ->
  Hook_String h = Hook_String h' ->
  ID h = ID h' /\ Action h = Action h' /\ EventType h = EventType h'.
Proof.
  intros Hv Hv' Heq.
  destruct (Validate_nil_known h Hv) as [Ha He].
  destruct (Validate_nil_known h' Hv') as [Ha' He'].
  rewrite !Hook_String_tail in Heq. simpl in Heq. injection Heq as Heq.
  destruct (Nat.le_ge_cases
              (String.length (renderingTail (Action h) (EventType h)))
              (String.length (renderingTail (Action h') (EventType h')))) as [Hle|Hle].
  - destruct (append_eq_tails _ _ _ _ Heq Hle) as (t & Ht & Hid).
    assert (Hend : endsWith (renderingTail (Action h') (EventType h'))
                     (renderingTail (Action h) (EventType h)) = true)
      by (rewrite Ht; apply endsWith_append).
    destruct (renderingTail_known Ha He Ha' He' Hend) as [Hact Het].
    rewrite <- Hact, <- Het in Ht. symmetry in Ht. apply append_same_tail in Ht.
    subst t. rewrite append_nil_r in Hid. now repeat split.
  - symmetry in Heq.
    destruct (append_eq_tails _ _ _ _ Heq Hle) as (t & Ht & Hid).
    assert (Hend : endsWith (renderingTail (Action h) (EventType h))
                     (renderingTail (Action h') (EventType h')) = true)
      by (rewrite Ht; apply endsWith_append).
    destruct (renderingTail_known Ha' He' Ha He Hend) as [Hact Het].
    rewrite <- Hact, <- Het in Ht. symmetry in Ht. apply append_same_tail in Ht.
    subst t. rewrite append_nil_r in Hid. now repeat split.
Qed.

End HookRendering.

(** * More on the login handler *)

Section HandlerBehaviour.
Import interceptor handler.

Implicit Types (me : loginHandler) (i : Interceptor) (w : World)
  (r : http.Request) (fs : list hook.HttpResponseModifierFunc).

(** The handler after the phases, the logger spelled out. *)
Lemma handler_outcome me (name : string) i w r fs :
  phases (hookRunner me) r hooksToRun = inl fs ->
  createInterceptorHandler me name i w r =
    match Result (Intercept i r) with
    | InterceptorResultDeny =>
        RespondWithMatrixError
          (Infof (loggerFor me name i r) "HTTP gateway (intercepted): denying (%s: %s)"
             [ArgString (ErrorCode (Intercept i r));
              ArgString (ErrorMessage (Intercept i r))] w)
          http.StatusForbidden
          (ErrorCode (Intercept i r)) (ErrorMessage (Intercept i r))
    | InterceptorResultProxy =>
        match fs with
        | [] =>
            ServeHTTP (reverseProxy me)
              (Debugf (loggerFor me name i r) "HTTP gateway (intercepted): proxying" [] w) r
        | _ :: _ =>
            ServeHTTP
              (withModifyResponse (reverseProxy me)
                 (hook.CreateChainedHttpResponseModifierFunc fs))
              (Debugf (loggerFor me name i r)
                 "HTTP gateway (intercepted): proxying (with response modification)"
                 [] w) r
        end
    | InterceptorResultOther _ =>
        Fatalf (loggerFor me name i r)
          "HTTP gateway (intercepted): unexpected interceptor result: %#v"
          [ArgResponse (Intercept i r)] w
    end.
Proof.
  intros Hphases.
  unfold createInterceptorHandler, loggerFor. cbv zeta.
  rewrite runHooks_phases, Hphases. cbn [app].
  destruct (Result (Intercept i r)); [reflexivity | | reflexivity].
  destruct fs; reflexivity.
Qed.

Lemma phases_first_end (hr : HookRunner) r (before after : list string)
    (eventType : string) fs (response : http.Response) :
  phases hr r before = inl fs ->
  RunPhase hr eventType r = PhaseEndsRequest response ->
  phases hr r (before ++ eventType :: after) = inr response.
Proof.
  revert fs. induction before as [|et before IH]; intros fs Hb He; simpl.
  - now rewrite He.
  - simpl in Hb. destruct (RunPhase hr et r) as [scheduled|]; [|discriminate].
    destruct (phases hr r before) as [later|] eqn:Hl; [|discriminate].
    now rewrite (IH later eq_refl He).
Qed.

(** X10.  When a phase ends the request, the handler does nothing but hand
    over that phase's response: the interceptor is not consulted and the
    reverse proxy is not used, so that handlers which differ in their
    interceptor and reverse proxy leave the same world behind. *)
Theorem phase_end_bypasses_interceptor me me' (name : string) i i' w r
    (response : http.Response) :
  phases (hookRunner me) r hooksToRun = inr response ->
  hookRunner me' = hookRunner me ->
  logger me' = logger me ->
  createInterceptorHandler me name i w r = write response w /\
  createInterceptorHandler me' name i' w r = createInterceptorHandler me name i w r.
Proof.
  intros Hphases Hhr _.
  rewrite (handler_phase_ended me name i w r Hphases).
  split; [reflexivity|].
  apply handler_phase_ended. now rewrite Hhr.
Qed.

(** X11.  The first phase that ends the request decides: with the phases
    before it letting the request continue, its response is what the handler
    leaves, whatever the phases after it would do. *)
Theorem first_ending_phase_decides me (name : string) i w r
    (before after : list string) (eventType : string) fs
    (response : http.Response) :
  hooksToRun = (before ++ eventType :: after)%list ->
  phases (hookRunner me) r before = inl fs ->
  RunPhase (hookRunner me) eventType r = PhaseEndsRequest response ->
  createInterceptorHandler me name i w r = write response w.
Proof.
  intros Hsplit Hbefore Hend.
  apply handler_phase_ended. rewrite Hsplit.
  exact (@phases_first_end _ _ _ after _ _ _ Hbefore Hend).
Qed.

(** X12.  A denied request is answered without the reverse proxy: handlers
    that differ in their reverse proxy only leave the same world behind. *)
Theorem deny_ignores_proxy me me' (name : string) i w r fs :
  phases (hookRunner me) r hooksToRun = inl fs ->
  hookRunner me' = hookRunner me ->
  logger me' = logger me ->
  Result (Intercept i r) = InterceptorResultDeny ->
  createInterceptorHandler me' name i w r = createInterceptorHandler me name i w r.
Proof.
  intros Hp Hhr Hlg Hres.
  assert (Hp' : phases (hookRunner me') r hooksToRun = inl fs) by now rewrite Hhr.
  rewrite (handler_outcome me name i w r Hp), (handler_outcome me' name i w r Hp').
  rewrite Hres. unfold loggerFor. now rewrite Hlg.
Qed.

(** X13.  Every request is either answered or ends the process: when the
    handler is done, a response has been written, or the process has exited
    with status 1 and the handler has written nothing. *)
Theorem request_answered_or_process_exits me (name : string) i w r :
  (exists response, written (createInterceptorHandler me name i w r) = Some response) \/
  (exited (createInterceptorHandler me name i w r) = Some 1%Z /\
   written (createInterceptorHandler me name i w r) = written w).
Proof.
  destruct (phases (hookRunner me) r hooksToRun) as [fs|response] eqn:Hphases.
  - rewrite (handler_outcome me name i w r Hphases).
    destruct (Result (Intercept i r)).
    + left. eexists. reflexivity.
    + left. destruct fs; unfold ServeHTTP, withModifyResponse; cbn [ModifyResponse].
      * destruct (ModifyResponse (reverseProxy me)) as [g|]; [|eexists; reflexivity].
        destruct (g _ _). eexists. reflexivity.
      * destruct (hook.CreateChainedHttpResponseModifierFunc _ _ _). eexists. reflexivity.
    + right. split; reflexivity.
  - left. rewrite (handler_phase_ended me name i w r Hphases). eexists. reflexivity.
Qed.

(** X14.  With rewrites queued, a [ModifyResponse] that the handler's reverse
    proxy has of its own is replaced, not chained: it makes no difference to
    what the handler leaves.  With nothing queued it is the one that runs. *)
Theorem queue_replaces_ModifyResponse me (name : string) i w r fs :
  phases (hookRunner me) r hooksToRun = inl fs ->
  Result (Intercept i r) = InterceptorResultProxy ->
  (fs <> [] ->
   forall own,
     createInterceptorHandler
       {| reverseProxy :=
            {| Upstream := Upstream (reverseProxy me); ModifyResponse := own |};
          hookRunner := hookRunner me;
          loginInterceptor := loginInterceptor me;
          logger := logger me |} name i w r =
     createInterceptorHandler me name i w r) /\
  (fs = [] ->
   forall g, ModifyResponse (reverseProxy me) = Some g ->
     written (createInterceptorHandler me name i w r) =
       Some (fst (g (Upstream (reverseProxy me) r) (ran w))) /\
     ran (createInterceptorHandler me name i w r) =
       snd (g (Upstream (reverseProxy me) r) (ran w))).
Proof.
  intros Hphases Hres. split.
  - intros Hfs own.
    rewrite (handler_outcome me name i w r Hphases).
    rewrite (@handler_outcome
               {| reverseProxy :=
                    {| Upstream := Upstream (reverseProxy me); ModifyResponse := own |};
                  hookRunner := hookRunner me;
                  loginInterceptor := loginInterceptor me;
                  logger := logger me |} name i w r fs Hphases).
    rewrite Hres. destruct fs; [contradiction | reflexivity].
  - intros -> g Hg.
    rewrite (handler_outcome me name i w r Hphases), Hres.
    unfold ServeHTTP. rewrite Hg. cbn [ran Debugf log].
    destruct (g (Upstream (reverseProxy me) r) (ran w)). split; reflexivity.
Qed.

(** X15.  A request that a phase ends, that the interceptor denies or that is
    proxied never ends the process. *)
Theorem expected_results_do_not_exit me (name : string) i w r :
  (exists response, phases (hookRunner me) r hooksToRun = inr response) \/
  Result (Intercept i r) = InterceptorResultDeny \/
  Result (Intercept i r) = InterceptorResultProxy ->
  exited (createInterceptorHandler me name i w r) = exited w.
Proof.
  intros H.
  destruct (phases (hookRunner me) r hooksToRun) as [fs|response] eqn:Hphases.
  - rewrite (handler_outcome me name i w r Hphases).
    destruct H as [[response H] | [H | H]]; [discriminate H | |]; rewrite H.
    + reflexivity.
    + destruct fs; unfold ServeHTTP, withModifyResponse; cbn [ModifyResponse].
      * destruct (ModifyResponse (reverseProxy me)) as [g|]; [|reflexivity].
        now destruct (g _ _).
      * now destruct (hook.CreateChainedHttpResponseModifierFunc _ _ _).
  - now rewrite (handler_phase_ended me name i w r Hphases).
Qed.

End HandlerBehaviour.

(** * More concrete runs *)

Module more_runs.
Import hook interceptor handler sample.
#[local] Existing Instance re2.lib.

(** The route regex of [brokenHook] fails: nothing else is tried.  The method
    regex of [methodBrokenHook] fails: the route matcher is set by then. *)
Example initialization_fails :
  ensureInitialized brokenHook =
    {| receiver := brokenHook; compiled := ["("];
       result := Some "error parsing regexp: missing closing ): `(`" |} /\
  result (ensureInitialized methodBrokenHook) =
    Some "error parsing regexp: missing argument to repetition operator: `*`" /\
  compiled (ensureInitialized methodBrokenHook) = ["^/login$"; "*"] /\
  RouteMatchesRegexCompiled (receiver (ensureInitialized methodBrokenHook)) =
    match @Compile re2.lib "^/login$" with inl regex => Some regex | inr _ => None end.
Proof. vm_compute. repeat split. Qed.

(** [strayHook] fails three checks of [Validate]; the first is reported. *)
Example strayHook_refused :
  result (Validate strayHook) = Some "Hook has no id" /\
  compiled (Validate strayHook) = [].
Proof. vm_compute. split; reflexivity. Qed.

(** Without validation the rendering does not tell the id from the action. *)
Example rendering_is_ambiguous_without_validation :
  Hook_String (decoded "a" "e" None None "b (c") =
  Hook_String (decoded "a (b" "e" None None "c").
Proof. reflexivity. Qed.

Lemma Validate_reads_five_fields_witness :
  result (Validate (respondHook None)) = None /\
  result (Validate (respondHook None)) = result (Validate (respondHook (Some 200%Z))) /\
  compiled (Validate (respondHook None)) = compiled (Validate (respondHook (Some 200%Z))).
Proof.
  split; [vm_compute; reflexivity|].
  apply (@Validate_reads_five_fields re2.lib (respondHook None) (respondHook (Some 200%Z)));
    reflexivity.
Defined.

Lemma MatchesRequest_reads_matchers_witness :
  result (Validate strayHook) = Some "Hook has no id" /\
  result (MatchesRequest strayHook postLogin) = Returned true /\
  result (MatchesRequest loginHook postLogin) =
    result (MatchesRequest strayHook postLogin).
Proof.
  split; [vm_compute; reflexivity|]. split; [vm_compute; reflexivity|].
  apply (@MatchesRequest_reads_matchers re2.lib loginHook strayHook postLogin);
    [reflexivity | reflexivity | intros H; discriminate H | intros H; discriminate H].
Defined.

Lemma Hook_String_identifies_witness :
  Hook_String loginHook = "<Hook #login-writes (pass.unmodified @ beforeAnyRequest)>" /\
  RouteMatchesRegex loginHook <> RouteMatchesRegex loginHookAgain /\
  ID loginHook = ID loginHookAgain /\
  Action loginHook = Action loginHookAgain /\
  EventType loginHook = EventType loginHookAgain.
Proof.
  split; [reflexivity|]. split; [discriminate|].
  apply (@Hook_String_identifies re2.lib loginHook loginHookAgain);
    [vm_compute; reflexivity | vm_compute; reflexivity | reflexivity].
Defined.

Lemma phase_end_bypasses_interceptor_witness :
  createInterceptorHandler (gateway answering proxying) "login" proxying start postLogin =
    write rejection start /\
  createInterceptorHandler
    {| reverseProxy := stampingProxy; hookRunner := answering;
       loginInterceptor := confused; logger := [] |}
    "login" confused start postLogin =
  createInterceptorHandler (gateway answering proxying) "login" proxying start postLogin.
Proof.
  apply (@phase_end_bypasses_interceptor (gateway answering proxying)
           {| reverseProxy := stampingProxy; hookRunner := answering;
              loginInterceptor := confused; logger := [] |}
           "login" proxying confused start postLogin rejection);
    reflexivity.
Defined.

Lemma first_ending_phase_decides_witness :
  createInterceptorHandler (gateway rejecting proxying) "login" proxying start postLogin =
    write rejection start.
Proof.
  apply (@first_ending_phase_decides (gateway rejecting proxying) "login" proxying
           start postLogin
           [EventTypeBeforeAnyRequest; EventTypeBeforeUnauthenticatedRequest;
            EventTypeAfterAnyRequest]
           [] EventTypeAfterUnauthenticatedRequest [first] rejection);
    reflexivity.
Defined.

Lemma deny_ignores_proxy_witness :
  createInterceptorHandler
    {| reverseProxy := stampingProxy; hookRunner := rewriting;
       loginInterceptor := denying; logger := [] |}
    "login" denying start postLogin =
  createInterceptorHandler (gateway rewriting denying) "login" denying start postLogin.
Proof.
  apply (@deny_ignores_proxy (gateway rewriting denying)
           {| reverseProxy := stampingProxy; hookRunner := rewriting;
              loginInterceptor := denying; logger := [] |}
           "login" denying start postLogin [first; second]);
    reflexivity.
Defined.

Lemma queue_replaces_ModifyResponse_witness :
  (createInterceptorHandler
     {| reverseProxy := stampingProxy; hookRunner := rewriting;
        loginInterceptor := proxying; logger := [] |}
     "login" proxying start postLogin =
   createInterceptorHandler (gateway rewriting proxying) "login" proxying start postLogin) /\
  (written (createInterceptorHandler
              {| reverseProxy := stampingProxy; hookRunner := quiet;
                 loginInterceptor := proxying; logger := [] |}
              "login" proxying start postLogin) = Some (stamp upstreamResponse) /\
   ran (createInterceptorHandler
          {| reverseProxy := stampingProxy; hookRunner := quiet;
             loginInterceptor := proxying; logger := [] |}
          "login" proxying start postLogin) = [stamp]).
Proof.
  split.
  - destruct (@queue_replaces_ModifyResponse (gateway rewriting proxying) "login"
                proxying start postLogin [first; second] eq_refl eq_refl) as [H _].
    apply (H ltac:(discriminate) (Some (call stamp))).
  - destruct (@queue_replaces_ModifyResponse
                {| reverseProxy := stampingProxy; hookRunner := quiet;
                   loginInterceptor := proxying; logger := [] |}
                "login" proxying start postLogin [] eq_refl eq_refl) as [_ H].
    apply (H eq_refl (call stamp) eq_refl).
Defined.

Lemma expected_results_do_not_exit_witness :
  exited (createInterceptorHandler (gateway rewriting denying) "login" denying
            start postLogin) = None /\
  exited (createInterceptorHandler (gateway rewriting proxying) "login" proxying
            start postLogin) = None /\
  exited (createInterceptorHandler (gateway answering confused) "login" confused
            start postLogin) = None.
Proof.
  split; [|split].
  - apply (@expected_results_do_not_exit (gateway rewriting denying) "login" denying
             start postLogin).
    right. left. reflexivity.
  - apply (@expected_results_do_not_exit (gateway rewriting proxying) "login" proxying
             start postLogin).
    right. right. reflexivity.
  - apply (@expected_results_do_not_exit (gateway answering confused) "login" confused
             start postLogin).
    left. exists rejection. reflexivity.
Defined.

End more_runs.
